(** * pylinkparse.epochs: the [Epochs] constructor

    A shallow embedding of [Epochs.__init__] (src/pylinkparse/epochs.py).
    The constructor is followed line by line: the marker loop (lines 43-67),
    the selection of the kept markers and the minimum window length
    (lines 69-70), the assembly and sort of the sample table (lines 72-92),
    the two time axes (lines 93-98), the attribute columns (lines 101-114)
    and the overlay of the parsed discrete events (lines 117-131).

    Conventions.
    - Python exceptions are the constructors of [exn]; a computation that
      may raise returns a [result].
    - Times are exact rationals ([Q]); the floating point rounding of
      numpy is not part of the model.
    - A Python dict keyed by event codes is an association list over the
      admissible codes, each once.  Python 2 leaves the iteration order of
      a dict open; the order only decides in which order groups are
      concatenated before the sort of line 89 and in which order cells are
      overwritten by the overlay.
    - The recording is an object of pylinkparse.raw, which is not part of
      the sources at hand: it is a record of what the constructor reads from
      it.
    - The table [self.data] is the list of its rows that hold samples
      ([self_data]); the rows that line 94 creates on a table with no row,
      which hold nothing but [times], are kept apart ([self_missing]). *)

From Stdlib Require Import String List ZArith QArith Qround Bool Lia Permutation Arith.
From Stdlib Require Import Sorted.
Import ListNotations.

Set Implicit Arguments.

(** ** Exceptions and results *)

Inductive exn : Type :=
| ValueError
| AssertionError
| IndexError
| AttributeError
| KeyError.

Inductive result (A : Type) : Type :=
| Ok (a : A)
| Raise (e : exn).

Arguments Ok {A} a.
Arguments Raise {A} e.

Definition bind {A B : Type} (r : result A) (f : A -> result B) : result B :=
  match r with
  | Ok a => f a
  | Raise e => Raise e
  end.

Notation "x <- c ;; k" := (bind c (fun x => k))
  (at level 61, c at next level, right associativity).

Fixpoint mapM {A B : Type} (f : A -> result B) (l : list A) : result (list B) :=
  match l with
  | [] => Ok []
  | x :: l' => y <- f x ;; ys <- mapM f l' ;; Ok (y :: ys)
  end.

Definition raises {A : Type} (r : result A) : Prop := exists e, r = Raise e.

(** ** numpy and pandas primitives used by the constructor *)

(** [a[i]] and [df.iloc[i]] for an integer position: a negative position
    counts from the end, a position outside the array raises IndexError. *)
Definition np_getitem {A : Type} (a : list A) (i : Z) : result A :=
  let n := Z.of_nat (length a) in
  let j := if (i <? 0)%Z then (i + n)%Z else i in
  if ((0 <=? j) && (j <? n))%Z then
    match nth_error a (Z.to_nat j) with
    | Some x => Ok x
    | None => Raise IndexError
    end
  else Raise IndexError.

(** [df.iloc[idx]] for an array of positions. *)
Definition iloc {A : Type} (a : list A) (idx : list Z) : result (list A) :=
  mapM (np_getitem a) idx.

(** [np.arange(lo, hi)] on integers; empty when [hi <= lo]. *)
Definition arange (lo hi : Z) : list Z :=
  map (fun k => (lo + Z.of_nat k)%Z) (seq 0 (Z.to_nat (hi - lo))).

(** [np.where(mask)[0]]: the positions at which the mask holds, ascending. *)
Fixpoint where_from {A : Type} (p : A -> bool) (i : nat) (l : list A) : list nat :=
  match l with
  | [] => []
  | x :: l' => if p x then i :: where_from p (S i) l' else where_from p (S i) l'
  end.

Definition np_where {A : Type} (p : A -> bool) (l : list A) : list nat :=
  where_from p 0 l.

(** [np.min] of a list; numpy raises ValueError on an empty one. *)
Definition np_min (l : list nat) : result nat :=
  match l with
  | [] => Raise ValueError
  | x :: l' => Ok (fold_left Nat.min l' x)
  end.

(** [np.any] of an integer array: some entry is not zero. *)
Definition np_any (ind : list nat) : bool :=
  existsb (fun i => negb (i =? 0)%nat) ind.

(** [np.tile(a, n)]. *)
Definition np_tile {A : Type} (a : list A) (n : nat) : list A :=
  concat (repeat a n).

(** [np.linspace(start, stop, num)] with the end point included: no point
    for [num = 0], the start alone for [num = 1], otherwise [num] points
    [start + i * step] whose last one is set to [stop].  The points are
    computed in exact arithmetic here; numpy rounds [step] and each
    interior point to a float, so of the facts below only the number of
    points and the two end points are the same in the floating-point
    result. *)
Definition linspace (start stop : Q) (num : nat) : list Q :=
  match num with
  | O => []
  | S O => [start]
  | S (S d as div) =>
      let step := (stop - start) / inject_Z (Z.of_nat div) in
      map (fun i => start + inject_Z (Z.of_nat i) * step) (seq 0 div) ++ [stop]
  end.

Definition Qlt_bool (a b : Q) : bool := negb (Qle_bool b a).

(** ** Dicts keyed by event code *)

Definition dict (V : Type) : Type := list (Z * V).

(** [{k: [] for k in my_event_id}] *)
Definition dict_init (V : Type) (keys : list Z) : dict (list V) :=
  map (fun k => (k, [])) (nodup Z.eq_dec keys).

(** [d[k].append(v)]; every use is guarded by the membership test of
    line 47, so the key is present. *)
Definition dict_append {V : Type} (k : Z) (v : V) (d : dict (list V)) : dict (list V) :=
  map (fun kv => if (fst kv =? k)%Z then (fst kv, snd kv ++ [v]) else kv) d.

Fixpoint dict_get {V : Type} (d : dict V) (k : Z) : option V :=
  match d with
  | [] => None
  | (k', v) :: d' => if (k' =? k)%Z then Some v else dict_get d' k
  end.

(** ** The recording (external collaborator) *)

(** Modelled from the spec: the row type of [raw._samples] is declared
    outside src/; the spec gives a table of continuous samples with a
    [time] column.  The other channels are kept as a list. *)
Record sample : Type := {
  time : Q;
  chans : list Q
}.

Inductive cell : Type :=
| Null
| Num (q : Q)
| Str (s : string).

(** Modelled from the spec: a row of a discrete-event table, with the
    [stime] and [etime] columns the constructor reads and the other
    attributes by column name. *)
Record devent : Type := {
  stime : Q;
  etime : Q;
  attrs : list (string * cell)
}.

(** Modelled from the spec: a discrete-event table (a pandas DataFrame
    built outside src/), with its column names and its rows in order; row
    [i] is the one at position [i] and, the index being the default one,
    at label [i]. *)
Record dtable : Type := {
  columns : list string;
  drows : list devent
}.

(** Modelled from the spec: the recording object (pylinkparse.raw.Raw is
    outside src/).  [event_types] is [raw.info['event_types']],
    [getattr] is attribute lookup by name ([None] when the attribute does
    not exist) and [time_as_index] is the time to sample index conversion. *)
Record Raw : Type := {
  _samples : list sample;
  event_types : list string;
  getattr : string -> option dtable;
  time_as_index : Q -> Z
}.

(** Modelled from the spec: [data, times = raw[:]] (line 31) reads through
    [Raw.__getitem__], which is outside src/; [times] is the absolute time
    of every sample of the recording. *)
Definition raw_times (raw : Raw) : list Q := map time (_samples raw).

(** The value of one column of a discrete event. *)
Definition dcell (ev : devent) (column : string) : result cell :=
  if String.eqb column "stime" then Ok (Num (stime ev))
  else if String.eqb column "etime" then Ok (Num (etime ev))
  else match find (fun kv => String.eqb (fst kv) column) (attrs ev) with
       | Some kv => Ok (snd kv)
       | None => Raise KeyError
       end.

(** ** The event_id argument *)

Inductive event_id_spec : Type :=
| Scalar (code : Z)
| Labeled (m : list (string * Z)).

(** Lines 33-37. *)
Definition my_event_id_of (event_id : event_id_spec) : list Z :=
  match event_id with
  | Scalar code => [code]
  | Labeled m => map snd m
  end.

Inductive label : Type :=
| LCode (c : Z)
| LName (s : string).

(** Line 79: [this_id if event_keys is None else event_keys[this_id]],
    where [event_keys] inverts the mapping (a later item wins). *)
Definition event_label (event_id : event_id_spec) (this_id : Z) : result label :=
  match event_id with
  | Scalar _ => Ok (LCode this_id)
  | Labeled m =>
      match find (fun kv => (snd kv =? this_id)%Z) (rev m) with
      | Some kv => Ok (LName (fst kv))
      | None => Raise KeyError
      end
  end.

(** ** Window extraction: the marker loop (lines 43-67) *)

Definition marker : Type := (Z * Z)%type.

Record loop_state : Type := {
  sample_inds : dict (list (list Z * nat));
  parsed_inds : list (dict (list (list nat)));
  keep_idx : list nat;
  ii : nat;
  min_samples : list nat
}.

(** Lines 39-45. *)
Definition init_state (my_event_id : list Z) : loop_state :=
  {| sample_inds := dict_init _ my_event_id;
     parsed_inds := [dict_init _ my_event_id; dict_init _ my_event_id;
                     dict_init _ my_event_id];
     keep_idx := [];
     ii := 0;
     min_samples := [] |}.

(** Line 62: [assert_array_less(stime, etime)]. *)
Definition assert_array_less (df : dtable) : bool :=
  forallb (fun ev => Qlt_bool (stime ev) (etime ev)) (drows df).

(** Lines 63-64: [np.where((stime >= this_tmin) & (etime <= this_tmax))[0]]. *)
Definition event_in_window (df : dtable) (this_tmin this_tmax : Q) : list nat :=
  np_where (fun ev => Qle_bool this_tmin (stime ev) && Qle_bool (etime ev) this_tmax)
           (drows df).

(** Lines 59-65: the loop over [zip(raw.info['event_types'], parsed_inds)]. *)
Fixpoint scan_kinds (raw : Raw) (this_id : Z) (this_tmin this_tmax : Q)
         (etypes : list string) (parsed : list (dict (list (list nat))))
  : result (list (dict (list (list nat)))) :=
  match etypes, parsed with
  | etype :: etypes', p :: parsed' =>
      match getattr raw etype with
      | None => Raise AttributeError
      | Some df =>
          if assert_array_less df then
            ps <- scan_kinds raw this_id this_tmin this_tmax etypes' parsed' ;;
            Ok (dict_append this_id (event_in_window df this_tmin this_tmax) p :: ps)
          else Raise AssertionError
      end
  | _, _ => Ok parsed
  end.

Definition admissible (my_event_id : list Z) (this_id : Z) : bool :=
  existsb (Z.eqb this_id) my_event_id.

(** Lines 49-51: the window of a marker and its pair of sample indices. *)
Definition window (raw : Raw) (tmin tmax : Q) (event : Z) : result (Q * Q) :=
  this_time <- np_getitem (raw_times raw) event ;;
  Ok (this_time + tmin, this_time + tmax)%Q.

Definition window_inds (raw : Raw) (w : Q * Q) : Z * Z :=
  (time_as_index raw (fst w), time_as_index raw (snd w)).

(** Line 52. *)
Definition out_of_bounds (raw : Raw) (inds : Z * Z) : bool :=
  (Z.of_nat (length (_samples raw)) <=? Z.max (fst inds) (snd inds))%Z.

Fixpoint loop (raw : Raw) (my_event_id : list Z) (tmin tmax : Q)
         (events : list marker) (st : loop_state) : result loop_state :=
  match events with
  | [] => Ok st
  | (event, this_id) :: rest =>
      if negb (admissible my_event_id this_id) then
        loop raw my_event_id tmin tmax rest st
      else
        w <- window raw tmin tmax event ;;
        let '(inds_min, inds_max) := window_inds raw w in
        if out_of_bounds raw (inds_min, inds_max) then Ok st
        else
          let inds := arange inds_min inds_max in
          parsed <- scan_kinds raw this_id (fst w) (snd w)
                               (event_types raw) (parsed_inds st) ;;
          loop raw my_event_id tmin tmax rest
               {| sample_inds := dict_append this_id (inds, ii st) (sample_inds st);
                  parsed_inds := parsed;
                  keep_idx := keep_idx st ++ [ii st];
                  ii := S (ii st);
                  min_samples := min_samples st ++ [length inds] |}
  end.

Definition extract (raw : Raw) (event_id : event_id_spec) (tmin tmax : Q)
           (events : list marker) : result loop_state :=
  loop raw (my_event_id_of event_id) tmin tmax events
       (init_state (my_event_id_of event_id)).

(** ** Table assembly (lines 69-92) *)

Fixpoint foldM {A S : Type} (f : A -> S -> result S) (l : list A) (s : S) : result S :=
  match l with
  | [] => Ok s
  | x :: l' => s' <- f x s ;; foldM f l' s'
  end.

(** Line 69: [events[keep_idx]]. *)
Definition take_rows (events : list marker) (keep : list nat) : result (list marker) :=
  mapM (fun i => np_getitem events (Z.of_nat i)) keep.

(** A row of the table before the index is set: the columns of
    [raw._samples], [event_id] and [epoch_idx]. *)
Record srow : Type := {
  s_sample : sample;
  s_event_id : label;
  s_epoch_idx : nat
}.

(** Lines 76-84, the body of the loop over [sample_inds.iteritems()]:
    the rows of one code and the lengths appended to [track_inds]. *)
Definition group_rows (raw : Raw) (event_id : event_id_spec) (n_min : nat)
           (this_id : Z) (values : list (list Z * nat)) : result (list srow * list nat) :=
  match values with
  | [] => Raise ValueError
  | _ :: _ =>
      let ind := map (fun v => firstn n_min (fst v)) values in
      df <- iloc (_samples raw) (concat ind) ;;
      lab <- event_label event_id this_id ;;
      let count := concat (map (fun v => repeat (snd v) n_min) values) in
      if (length count =? length df)%nat then
        Ok (map (fun sc => {| s_sample := fst sc; s_event_id := lab; s_epoch_idx := snd sc |})
                (combine df count),
            map (@length Z) ind)
      else Raise ValueError
  end.

(** Lines 72-88: all groups, concatenated in the order of the dict. *)
Fixpoint assemble_groups (raw : Raw) (event_id : event_id_spec) (n_min : nat)
         (d : dict (list (list Z * nat))) : result (list srow * list nat) :=
  match d with
  | [] => Ok ([], [])
  | (this_id, values) :: d' =>
      g <- group_rows raw event_id n_min this_id values ;;
      rest <- assemble_groups raw event_id n_min d' ;;
      Ok (fst g ++ fst rest, snd g ++ snd rest)
  end.

(** Line 89: the sort by [['epoch_idx', 'time']], as a stable insertion sort. *)
Definition sort_le (a b : srow) : bool :=
  (s_epoch_idx a <? s_epoch_idx b)%nat
  || ((s_epoch_idx a =? s_epoch_idx b)%nat
      && Qle_bool (time (s_sample a)) (time (s_sample b))).

Fixpoint insert_row (x : srow) (l : list srow) : list srow :=
  match l with
  | [] => [x]
  | y :: l' => if sort_le x y then x :: l else y :: insert_row x l'
  end.

Fixpoint sort_rows (l : list srow) : list srow :=
  match l with
  | [] => []
  | x :: l' => insert_row x (sort_rows l')
  end.

(** Line 90: [set(track_inds) == set([min_samples])]. *)
Definition all_min_samples (track_inds : list nat) (n_min : nat) : bool :=
  match track_inds with
  | [] => false
  | _ :: _ => forallb (Nat.eqb n_min) track_inds
  end.

Record assembled : Type := {
  as_data : list srow;
  as_min_samples : nat;
  as_n_epochs : nat
}.

(** Lines 70-92. *)
Definition assemble (raw : Raw) (event_id : event_id_spec) (st : loop_state)
  : result assembled :=
  n_min <- np_min (min_samples st) ;;
  g <- assemble_groups raw event_id n_min (sample_inds st) ;;
  match sample_inds st with
  | [] => Raise ValueError
  | _ :: _ =>
      if all_min_samples (snd g) n_min then
        Ok {| as_data := sort_rows (fst g);
              as_min_samples := n_min;
              as_n_epochs := length (snd g) |}
      else Raise AssertionError
  end.

(** ** The index and the attribute columns (lines 93-114) *)

Record row : Type := {
  base : srow;
  times : Q;
  cols : list (string * cell)
}.

Definition epoch_idx (r : row) : nat := s_epoch_idx (base r).
Definition row_time (r : row) : Q := time (s_sample (base r)).

(** Lines 102-114. *)
Definition attribute_columns : list string :=
  ["event"; "eye"; "stime"; "etime"; "dur"; "sxp"; "exp"; "eyp"; "syp";
   "ampl"; "pvl"; "resx"; "resy"]%string.

Definition key_eqb (a b : nat * Q) : bool :=
  (fst a =? fst b)%nat && Qeq_bool (snd a) (snd b).

Fixpoint has_duplicates (keys : list (nat * Q)) : bool :=
  match keys with
  | [] => false
  | k :: keys' => existsb (key_eqb k) keys' || has_duplicates keys'
  end.

Fixpoint has_duplicate_times (ts : list Q) : bool :=
  match ts with
  | [] => false
  | t :: ts' => existsb (Qeq_bool t) ts' || has_duplicate_times ts'
  end.

(** Line 94: [self.data['times'] = np.tile(times, n_epochs)], where
    [times] is the variable bound at line 31.  On a table that has rows
    pandas refuses a column whose length differs from the table's.  On a
    table that has no row it takes the column as it is: the table then has
    one row per value of the column, and every other column of these rows
    is missing.  The result is the rows of the assembled table with their
    [times], and the [times] of the rows that hold nothing else. *)
Definition assign_times (raw : Raw) (n_epochs : nat) (data : list srow)
  : result (list (srow * Q) * list Q) :=
  let tiled := np_tile (raw_times raw) n_epochs in
  match data with
  | [] => Ok ([], tiled)
  | _ :: _ =>
      if (length tiled =? length data)%nat then Ok (combine data tiled, [])
      else Raise ValueError
  end.

(** Lines 97-98: [set_index(['epoch_idx', 'times'], verify_integrity=True)].
    The rows that hold nothing but [times] have a missing [epoch_idx], so
    two of them have one key when their [times] are equal. *)
Definition set_index (data : list (srow * Q) * list Q)
  : result (list (srow * Q) * list Q) :=
  if has_duplicates (map (fun r => (s_epoch_idx (fst r), snd r)) (fst data))
     || has_duplicate_times (snd data)
  then Raise ValueError
  else Ok data.

(** Lines 94-114: the rows of the assembled table, indexed and with their
    attribute columns, and the [times] of the rows that hold nothing else
    (their attribute columns are missing like their other columns). *)
Definition index_table (raw : Raw) (n_epochs : nat) (data : list srow)
  : result (list row * list Q) :=
  d <- assign_times raw n_epochs data ;;
  d <- set_index d ;;
  Ok (map (fun r => {| base := fst r; times := snd r;
                       cols := map (fun c => (c, Null)) attribute_columns |}) (fst d),
      snd d).

(** ** Overlay of the parsed discrete events (lines 117-131) *)

(** [this_out[column].iloc[here] = val] on one row. *)
Definition set_col (column : string) (val : cell) (r : row) : row :=
  {| base := base r; times := times r;
     cols := map (fun kv => if String.eqb (fst kv) column then (fst kv, val) else kv)
                 (cols r) |}.

(** Lines 125-127: the rows of epoch [ii] strictly inside the event. *)
Definition here (ev : devent) (ii : nat) (r : row) : bool :=
  (epoch_idx r =? ii)%nat
  && Qlt_bool (stime ev) (row_time r) && Qlt_bool (row_time r) (etime ev).

(** Lines 128-130, one column: the value is read at label 0 of the
    discrete table.  The assignment through [this_out] is taken to reach
    the table [d], as the loop intends (pandas does not promise it for a
    chained assignment).  The columns that can be written are the thirteen
    of lines 102-114; any other name is a KeyError, as it is in the code
    for a name that is no column of the table.  The columns that come from
    [raw._samples] and [event_id] are typed fields of a row here: a
    discrete table with a column of one of those names, into which the
    code would write, is outside the model. *)
Definition write_column (this_in : dtable) (ev : devent) (ii : nat)
           (column : string) (d : list row) : result (list row) :=
  val <- match drows this_in with
         | ev0 :: _ => dcell ev0 column
         | [] => Raise KeyError
         end ;;
  if existsb (String.eqb column) attribute_columns then
    Ok (map (fun r => if here ev ii r then set_col column val r else r) d)
  else Raise KeyError.

(** Lines 124-130, one discrete event [iii]. *)
Definition write_event (this_in : dtable) (ii iii : nat) (d : list row)
  : result (list row) :=
  ev <- np_getitem (drows this_in) (Z.of_nat iii) ;;
  foldM (write_column this_in ev ii) (columns this_in) d.

(** Line 123: [d.loc[ii]] looks the label [ii] up among the values of
    [epoch_idx]; a label that no row carries is a KeyError. *)
Definition has_label (d : list row) (ii : Z) : bool :=
  existsb (fun r => (Z.of_nat (epoch_idx r) =? ii)%Z) d.

(** Lines 123-131, one epoch: the lookup of line 123 comes before the test
    of line 124. *)
Definition overlay_epoch (this_in : dtable) (e : Z * list nat) (d : list row)
  : result (list row) :=
  if has_label d (fst e) then
    if np_any (snd e) then foldM (write_event this_in (Z.to_nat (fst e))) (snd e) d
    else Ok d
  else Raise KeyError.

(** [set(d.index.labels[0])]: the codes of the first index level, one for
    each distinct [epoch_idx], and -1 for a missing [epoch_idx].  [missing]
    holds the [times] of the rows that hold nothing else. *)
Definition index_labels (d : list row) (missing : list Q) : list Z :=
  map Z.of_nat (seq 0 (length (nodup Nat.eq_dec (map epoch_idx d))))
  ++ match missing with [] => [] | _ :: _ => [(-1)%Z] end.

(** Lines 122-131, one code. *)
Definition overlay_code (this_in : dtable) (missing : list Q)
           (kv : Z * list (list nat)) (d : list row) : result (list row) :=
  foldM (overlay_epoch this_in) (combine (index_labels d missing) (snd kv)) d.

(** Lines 119-131, one kind. *)
Definition overlay_kind (raw : Raw) (missing : list Q)
           (kp : string * dict (list (list nat)))
           (d : list row) : result (list row) :=
  match getattr raw (fst kp) with
  | None => Raise AttributeError
  | Some this_in => foldM (overlay_code this_in missing) (snd kp) d
  end.

Definition kinds : list string := ["_saccades"; "_fixations"; "_blinks"]%string.

(** Lines 117-131. *)
Definition overlay (raw : Raw) (parsed : list (dict (list (list nat))))
           (missing : list Q) (d : list row) : result (list row) :=
  foldM (overlay_kind raw missing) (combine kinds parsed) d.

(** The cell of a row under an attribute column. *)
Definition get_col (column : string) (r : row) : cell :=
  match find (fun kv => String.eqb (fst kv) column) (cols r) with
  | Some kv => snd kv
  | None => Null
  end.

(** ** The constructor *)

Record Epochs : Type := {
  self_info : list string;
  self_event_id : event_id_spec;
  self_tmin : Q;
  self_tmax : Q;
  self_events : list marker;
  self_times : list Q;
  self_n_times : nat;
  self_data : list row;
  self_missing : list Q
}.

(** [self_data] holds the rows of [self.data] that come from the assembled
    table; [self_missing] holds the [times] of the rows of [self.data] that
    hold nothing else (line 94 on a table with no row). *)
Definition Epochs_init (raw : Raw) (events : list marker) (event_id : event_id_spec)
           (tmin tmax : Q) : result Epochs :=
  st <- extract raw event_id tmin tmax events ;;
  kept <- take_rows events (keep_idx st) ;;
  a <- assemble raw event_id st ;;
  t <- index_table raw (as_n_epochs a) (as_data a) ;;
  d <- overlay raw (parsed_inds st) (snd t) (fst t) ;;
  Ok {| self_info := event_types raw;
        self_event_id := event_id;
        self_tmin := tmin;
        self_tmax := tmax;
        self_events := kept;
        self_times := linspace tmin tmax (as_min_samples a);
        self_n_times := as_min_samples a;
        self_data := d;
        self_missing := snd t |}.

(** ** The accepted markers, as the specification words them *)

(** The markers that are accepted: a marker whose code is not admissible
    is passed over; the first admissible marker whose window leaves the
    recording ends the list; every other admissible marker is accepted. *)
Fixpoint accepted_markers (raw : Raw) (my_event_id : list Z) (tmin tmax : Q)
         (events : list marker) : list marker :=
  match events with
  | [] => []
  | (event, this_id) :: rest =>
      if negb (admissible my_event_id this_id) then
        accepted_markers raw my_event_id tmin tmax rest
      else
        match window raw tmin tmax event with
        | Raise _ => []
        | Ok w =>
            if out_of_bounds raw (window_inds raw w) then []
            else (event, this_id) :: accepted_markers raw my_event_id tmin tmax rest
        end
  end.

(** The raw sample-index range of a marker (line 54). *)
Definition marker_inds (raw : Raw) (tmin tmax : Q) (m : marker) : list Z :=
  match window raw tmin tmax (fst m) with
  | Ok w => arange (time_as_index raw (fst w)) (time_as_index raw (snd w))
  | Raise _ => []
  end.

(** The name of the Python class of an exception. *)
Definition exn_name (e : exn) : string :=
  match e with
  | ValueError => "ValueError"
  | AssertionError => "AssertionError"
  | IndexError => "IndexError"
  | AttributeError => "AttributeError"
  | KeyError => "KeyError"
  end.

(** Half-open containment of [[s, e)] in [[a, b)]. *)
Definition interval_within (s e a b : Q) : Prop :=
  forall t : Q, (s <= t)%Q -> (t < e)%Q -> (a <= t)%Q /\ (t < b)%Q.

(** The window [(this_tmin, this_tmax)] of a marker (line 50). *)
Definition marker_window (raw : Raw) (tmin tmax : Q) (m : marker) : Q * Q :=
  match window raw tmin tmax (fst m) with
  | Ok w => w
  | Raise _ => (0, 0)%Q
  end.

(** The row indices recorded for a marker against the table [df]
    (lines 63-65). *)
Definition recorded (raw : Raw) (tmin tmax : Q) (df : dtable) (m : marker) : list nat :=
  event_in_window df (fst (marker_window raw tmin tmax m))
                  (snd (marker_window raw tmin tmax m)).

(** The markers of one code. *)
Definition with_code (c : Z) (l : list marker) : list marker :=
  filter (fun m => (snd m =? c)%Z) l.

(** The samples an epoch keeps: those at the first [n_min] indices of its
    raw range. *)
Definition epoch_samples (raw : Raw) (n_min : nat) (inds : list Z) : list sample :=
  match iloc (_samples raw) (firstn n_min inds) with
  | Ok ss => ss
  | Raise _ => []
  end.

(** The rows one entry of [sample_inds] contributes to the table. *)
Definition epoch_rows (raw : Raw) (lab : label) (n_min : nat) (e : list Z * nat)
  : list srow :=
  map (fun s => {| s_sample := s; s_event_id := lab; s_epoch_idx := snd e |})
      (epoch_samples raw n_min (fst e)).

Definition label_of (event_id : event_id_spec) (c : Z) : label :=
  match event_label event_id c with
  | Ok lab => lab
  | Raise _ => LCode c
  end.

(** The entry of [sample_inds] appended for the marker accepted as epoch [snd x]. *)
Definition entry (raw : Raw) (tmin tmax : Q) (x : marker * nat) : list Z * nat :=
  (marker_inds raw tmin tmax (fst x), snd x).

Definition code_of (x : marker * nat) : Z := snd (fst x).

(** The accepted markers with their epoch index. *)
Definition indexed (acc : list marker) : list (marker * nat) :=
  combine acc (seq 0 (length acc)).

(** Properties of a time axis. *)
Definition strictly_increasing (l : list Q) : Prop :=
  forall i a b, nth_error l i = Some a -> nth_error l (S i) = Some b -> (a < b)%Q.

Definition evenly_spaced (l : list Q) : Prop :=
  exists step : Q,
    forall i a b, nth_error l i = Some a -> nth_error l (S i) = Some b ->
                  (b - a == step)%Q.

(** ** The effect of one accepted marker on the loop state *)

(** What lines 59-65 leave in [parsed_inds] when no table fails. *)
Fixpoint record_kinds (raw : Raw) (this_id : Z) (this_tmin this_tmax : Q)
         (etypes : list string) (parsed : list (dict (list (list nat))))
  : list (dict (list (list nat))) :=
  match etypes, parsed with
  | etype :: etypes', p :: parsed' =>
      match getattr raw etype with
      | Some df => dict_append this_id (event_in_window df this_tmin this_tmax) p
      | None => p
      end :: record_kinds raw this_id this_tmin this_tmax etypes' parsed'
  | _, _ => parsed
  end.

(** The state after the body of the loop has run for an accepted marker
    (lines 54-67). *)
Definition accept (raw : Raw) (tmin tmax : Q) (st : loop_state) (m : marker)
  : loop_state :=
  match window raw tmin tmax (fst m) with
  | Ok w =>
      {| sample_inds := dict_append (snd m) (marker_inds raw tmin tmax m, ii st)
                                    (sample_inds st);
         parsed_inds := record_kinds raw (snd m) (fst w) (snd w)
                                     (event_types raw) (parsed_inds st);
         keep_idx := keep_idx st ++ [ii st];
         ii := S (ii st);
         min_samples := min_samples st ++ [length (marker_inds raw tmin tmax m)] |}
  | Raise _ => st
  end.

(** ** Rows and events *)

(** A row whose sample time is strictly inside no event of the three
    tables the overlay reads. *)
Definition outside_every_event (raw : Raw) (r : row) : Prop :=
  forall kind this_in ev,
    In kind kinds -> getattr raw kind = Some this_in -> In ev (drows this_in) ->
    ~ ((stime ev < row_time r)%Q /\ (row_time r < etime ev)%Q).

(** ** Example recordings *)

Module Examples.

Local Open Scope string_scope.

Definition no_events : dtable :=
  {| columns := ["stime"; "etime"]; drows := [] |}.

Definition two_saccades : dtable :=
  {| columns := ["stime"; "etime"; "ampl"];
     drows := [ {| stime := -1; etime := -1 # 2; attrs := [("ampl", Num 10)] |};
                {| stime := 1 # 2; etime := 3 # 2; attrs := [("ampl", Num 20)] |} ] |}.

Definition one_saccade : dtable :=
  {| columns := ["stime"; "etime"; "ampl"];
     drows := [ {| stime := 1 # 2; etime := 3 # 2; attrs := [("ampl", Num 20)] |} ] |}.

Definition reversed_blink : dtable :=
  {| columns := ["stime"; "etime"];
     drows := [ {| stime := 1; etime := 1; attrs := [] |} ] |}.

(** The three tables under their public names (read through
    [raw.info['event_types']]) and their private names (read at line 118). *)
Definition tables (s f b : option dtable) (name : string) : option dtable :=
  if String.eqb name "saccades" || String.eqb name "_saccades" then s
  else if String.eqb name "fixations" || String.eqb name "_fixations" then f
  else if String.eqb name "blinks" || String.eqb name "_blinks" then b
  else None.

(** A recording with samples at the given times, whose index of a time
    is its integer part. *)
Definition recording_at (ts : list Q) (s f b : option dtable) : Raw :=
  {| _samples := map (fun t => {| time := t; chans := [] |}) ts;
     event_types := ["saccades"; "fixations"; "blinks"];
     getattr := tables s f b;
     time_as_index := Qfloor |}.

(** A recording of [n] samples at times 0, 1, ..., n-1. *)
Definition recording (n : nat) (s f b : option dtable) : Raw :=
  recording_at (map (fun k => inject_Z (Z.of_nat k)) (seq 0 n)) s f b.


(** One sample; no blink table, and blinks are not among the event types. *)
Definition without_blinks : Raw :=
  {| _samples := [ {| time := 0; chans := [] |} ];
     event_types := ["saccades"; "fixations"];
     getattr := tables (Some no_events) (Some no_events) None;
     time_as_index := Qfloor |}.

Definition plain (n : nat) : Raw :=
  recording n (Some no_events) (Some no_events) (Some no_events).


End Examples.

(** ** Facts about the primitives *)

Lemma bind_Ok {A B : Type} (r : result A) (f : A -> result B) (b : B) :
  bind r f = Ok b -> exists a, r = Ok a /\ f a = Ok b.
Proof.
  destruct r as [a|e]; simpl; intros H; [exists a; auto | discriminate].
Qed.

Ltac bind_inv H :=
  let x := fresh "x" in
  let Hx := fresh "Hx" in
  apply bind_Ok in H; destruct H as [x [Hx H]].

Lemma mapM_app {A B : Type} (f : A -> result B) (l1 l2 : list A) :
  mapM f (l1 ++ l2) = (y1 <- mapM f l1 ;; y2 <- mapM f l2 ;; Ok (y1 ++ y2)).
Proof.
  induction l1 as [|x l1 IH]; simpl.
  - destruct (mapM f l2); reflexivity.
  - destruct (f x) as [y|e]; simpl; [|reflexivity].
    rewrite IH. destruct (mapM f l1) as [y1|e]; simpl; [|reflexivity].
    destruct (mapM f l2); reflexivity.
Qed.

Lemma mapM_length {A B : Type} (f : A -> result B) (l : list A) (ys : list B) :
  mapM f l = Ok ys -> length ys = length l.
Proof.
  revert ys. induction l as [|x l IH]; simpl; intros ys H.
  - inversion H. reflexivity.
  - bind_inv H. bind_inv H. inversion H; subst. simpl. f_equal. auto.
Qed.

Lemma mapM_ext_in {A B : Type} (f g : A -> result B) (l : list A) :
  (forall x, In x l -> f x = g x) -> mapM f l = mapM g l.
Proof.
  induction l as [|x l IH]; simpl; intros H; [reflexivity|].
  rewrite (H x (or_introl eq_refl)), IH; auto.
Qed.

Lemma np_getitem_app {A : Type} (a b : list A) (i : nat) :
  (i < length a)%nat ->
  np_getitem (a ++ b) (Z.of_nat i) = np_getitem a (Z.of_nat i).
Proof.
  intros Hi. unfold np_getitem.
  assert (Hneg : (Z.of_nat i <? 0)%Z = false) by (apply Z.ltb_ge; lia).
  rewrite Hneg, length_app.
  assert (H1 : ((0 <=? Z.of_nat i) && (Z.of_nat i <? Z.of_nat (length a + length b)))%Z = true).
  { apply andb_true_iff; split; [apply Z.leb_le | apply Z.ltb_lt]; lia. }
  assert (H2 : ((0 <=? Z.of_nat i) && (Z.of_nat i <? Z.of_nat (length a)))%Z = true).
  { apply andb_true_iff; split; [apply Z.leb_le | apply Z.ltb_lt]; lia. }
  rewrite H1, H2, Nat2Z.id, nth_error_app1 by assumption. reflexivity.
Qed.


(** ** The marker loop *)

Lemma scan_kinds_record raw this_id a b etypes parsed ps :
  scan_kinds raw this_id a b etypes parsed = Ok ps ->
  ps = record_kinds raw this_id a b etypes parsed.
Proof.
  revert parsed ps. induction etypes as [|etype etypes IH]; intros parsed ps H.
  - simpl in *. destruct parsed; inversion H; reflexivity.
  - destruct parsed as [|p parsed]; simpl in *; [inversion H; reflexivity|].
    destruct (getattr raw etype) as [df|]; [|discriminate].
    destruct (assert_array_less df); [|discriminate].
    bind_inv H. inversion H; subst. f_equal. apply IH; assumption.
Qed.

(** Every table that the scan reaches exists and passes the assertion. *)
Lemma scan_kinds_checked raw this_id a b etypes parsed ps k etype :
  scan_kinds raw this_id a b etypes parsed = Ok ps ->
  nth_error etypes k = Some etype ->
  (k < length parsed)%nat ->
  exists df, getattr raw etype = Some df /\ assert_array_less df = true.
Proof.
  revert parsed ps k. induction etypes as [|e etypes IH]; intros parsed ps k H Hk Hlen.
  - destruct k; discriminate.
  - destruct parsed as [|p parsed]; [simpl in Hlen; lia|].
    simpl in H. destruct (getattr raw e) as [df|] eqn:Hg; [|discriminate].
    destruct (assert_array_less df) eqn:Ha; [|discriminate].
    bind_inv H. destruct k as [|k]; simpl in Hk.
    + inversion Hk; subst. exists df; auto.
    + eapply IH; eauto. simpl in Hlen. lia.
Qed.

Lemma record_kinds_length raw this_id a b etypes parsed :
  length (record_kinds raw this_id a b etypes parsed) = length parsed.
Proof.
  revert parsed. induction etypes as [|e etypes IH]; intros [|p parsed]; simpl; auto.
Qed.

Lemma loop_accepted raw ids tmin tmax events :
  forall st st',
    loop raw ids tmin tmax events st = Ok st' ->
    st' = fold_left (accept raw tmin tmax) (accepted_markers raw ids tmin tmax events) st.
Proof.
  induction events as [|[event this_id] rest IH]; intros st st' H; simpl in *.
  - inversion H; reflexivity.
  - destruct (admissible ids this_id); simpl in *; [|apply IH; assumption].
    destruct (window raw tmin tmax event) as [w|e] eqn:Hw; simpl in H; [|discriminate].
    unfold window_inds in *.
    destruct (out_of_bounds raw _) eqn:Hob; [inversion H; reflexivity|].
    bind_inv H. apply IH in H. simpl. rewrite H. f_equal.
    unfold accept, marker_inds. simpl. rewrite Hw.
    rewrite (scan_kinds_record _ _ _ _ _ _ Hx). reflexivity.
Qed.

Lemma accepted_markers_In raw ids tmin tmax events m :
  In m (accepted_markers raw ids tmin tmax events) ->
  In m events /\ admissible ids (snd m) = true /\
  exists w, window raw tmin tmax (fst m) = Ok w /\
            out_of_bounds raw (window_inds raw w) = false.
Proof.
  induction events as [|[event this_id] rest IH]; simpl; intros H; [contradiction|].
  destruct (admissible ids this_id) eqn:Ha; simpl in H.
  - destruct (window raw tmin tmax event) as [w|e] eqn:Hw; [|contradiction].
    destruct (out_of_bounds raw (window_inds raw w)) eqn:Hob; [contradiction|].
    destruct H as [H|H].
    + subst m. simpl. repeat split; auto. exists w; auto.
    + destruct (IH H) as [H1 H2]. split; auto.
  - destruct (IH H) as [H1 H2]. split; auto.
Qed.

Lemma accepted_markers_length raw ids tmin tmax events :
  (length (accepted_markers raw ids tmin tmax events) <= length events)%nat.
Proof.
  induction events as [|[event this_id] rest IH]; simpl; [lia|].
  destruct (admissible ids this_id); simpl; [|lia].
  destruct (window raw tmin tmax event) as [w|e]; simpl; [|lia].
  destruct (out_of_bounds raw (window_inds raw w)); simpl; lia.
Qed.

(** The loop stops at an admissible marker whose window leaves the recording. *)
Lemma loop_stops raw ids tmin tmax pre event this_id post w :
  admissible ids this_id = true ->
  window raw tmin tmax event = Ok w ->
  out_of_bounds raw (window_inds raw w) = true ->
  forall st,
    loop raw ids tmin tmax (pre ++ (event, this_id) :: post) st
    = loop raw ids tmin tmax pre st.
Proof.
  intros Ha Hw Hob. induction pre as [|[ev id] pre IH]; intros st; simpl.
  - rewrite Ha, Hw. simpl. unfold window_inds in *. rewrite Hob. reflexivity.
  - destruct (admissible ids id); simpl; [|apply IH].
    destruct (window raw tmin tmax ev) as [w'|e]; simpl; [|reflexivity].
    destruct (out_of_bounds raw (time_as_index raw (fst w'), time_as_index raw (snd w')));
      [reflexivity|].
    destruct (scan_kinds raw id (fst w') (snd w') (event_types raw) (parsed_inds st));
      simpl; [apply IH | reflexivity].
Qed.

Section AcceptFold.

Variables (raw : Raw) (tmin tmax : Q).

Lemma fold_accept_ii acc : forall st,
  (forall m, In m acc -> exists w, window raw tmin tmax (fst m) = Ok w) ->
  ii (fold_left (accept raw tmin tmax) acc st) = (ii st + length acc)%nat
  /\ keep_idx (fold_left (accept raw tmin tmax) acc st)
     = keep_idx st ++ seq (ii st) (length acc)
  /\ min_samples (fold_left (accept raw tmin tmax) acc st)
     = min_samples st ++ map (fun m => length (marker_inds raw tmin tmax m)) acc.
Proof.
  induction acc as [|m acc IH]; intros st Hw; simpl.
  - rewrite !app_nil_r. repeat split; lia.
  - destruct (Hw m (or_introl eq_refl)) as [w Hm].
    destruct (IH (accept raw tmin tmax st m)) as [H1 [H2 H3]].
    { intros m' Hm'. apply Hw. right. assumption. }
    rewrite H1, H2, H3. unfold accept. rewrite Hm. simpl.
    rewrite <- !app_assoc. simpl. repeat split; lia.
Qed.

End AcceptFold.

Lemma extract_accepted raw event_id tmin tmax events st :
  extract raw event_id tmin tmax events = Ok st ->
  let acc := accepted_markers raw (my_event_id_of event_id) tmin tmax events in
  st = fold_left (accept raw tmin tmax) acc (init_state (my_event_id_of event_id))
  /\ ii st = length acc
  /\ keep_idx st = seq 0 (length acc)
  /\ min_samples st = map (fun m => length (marker_inds raw tmin tmax m)) acc.
Proof.
  intros H acc. apply loop_accepted in H. fold acc in H.
  destruct (fold_accept_ii raw tmin tmax acc (init_state (my_event_id_of event_id)))
    as [H1 [H2 H3]].
  { intros m Hm. apply accepted_markers_In in Hm.
    destruct Hm as [_ [_ [w [Hw _]]]]. exists w; assumption. }
  rewrite <- H in H1, H2, H3. simpl in *. auto.
Qed.

(** ** Early termination at the end of the recording *)

(** C2.  When an admissible marker's window converts to a pair of sample
    indices one of which is at or beyond the number of samples of the
    recording, the loop stops there: the extraction state, the accepted
    markers and the whole construction are those of the markers that come
    before it, whatever that marker and the markers after it are. *)
Theorem out_of_bounds_marker_ends_processing
        (raw : Raw) (event_id : event_id_spec) (tmin tmax : Q)
        (pre post : list marker) (event this_id : Z) (w : Q * Q)
        (Hadm : admissible (my_event_id_of event_id) this_id = true)
        (Hwin : window raw tmin tmax event = Ok w)
        (Hout : (Z.of_nat (length (_samples raw))
                 <= Z.max (time_as_index raw (fst w)) (time_as_index raw (snd w)))%Z) :
  extract raw event_id tmin tmax (pre ++ (event, this_id) :: post)
  = extract raw event_id tmin tmax pre
  /\ accepted_markers raw (my_event_id_of event_id) tmin tmax (pre ++ (event, this_id) :: post)
     = accepted_markers raw (my_event_id_of event_id) tmin tmax pre
  /\ Epochs_init raw (pre ++ (event, this_id) :: post) event_id tmin tmax
     = Epochs_init raw pre event_id tmin tmax.
Proof.
  assert (Hob : out_of_bounds raw (window_inds raw w) = true).
  { unfold out_of_bounds, window_inds. simpl. apply Z.leb_le. assumption. }
  assert (Hex : extract raw event_id tmin tmax (pre ++ (event, this_id) :: post)
                = extract raw event_id tmin tmax pre).
  { unfold extract. eapply loop_stops; eassumption. }
  split; [assumption|]. split.
  - clear Hex. induction pre as [|[ev id] pre IH]; simpl.
    + rewrite Hadm, Hwin. simpl. rewrite Hob. reflexivity.
    + rewrite IH. reflexivity.
  - unfold Epochs_init. rewrite Hex.
    destruct (extract raw event_id tmin tmax pre) as [st|e] eqn:Hst; simpl; [|reflexivity].
    destruct (extract_accepted _ _ _ _ _ Hst) as [_ [_ [Hk _]]].
    assert (Htake : take_rows (pre ++ (event, this_id) :: post) (keep_idx st)
                    = take_rows pre (keep_idx st)).
    { unfold take_rows. apply mapM_ext_in. intros i Hi. rewrite Hk in Hi.
      apply in_seq in Hi. apply np_getitem_app.
      pose proof (accepted_markers_length raw (my_event_id_of event_id) tmin tmax pre).
      lia. }
    rewrite Htake. reflexivity.
Qed.

Lemma out_of_bounds_marker_ends_processing_witness :
  extract (Examples.plain 4) (Scalar 1) (-1) 1 ([(1, 1)] ++ (3, 1) :: [(1, 1)])%Z
  = extract (Examples.plain 4) (Scalar 1) (-1) 1 [(1, 1)%Z]
  /\ accepted_markers (Examples.plain 4) (my_event_id_of (Scalar 1)) (-1) 1
                      ([(1, 1)] ++ (3, 1) :: [(1, 1)])%Z
     = accepted_markers (Examples.plain 4) (my_event_id_of (Scalar 1)) (-1) 1 [(1, 1)%Z]
  /\ Epochs_init (Examples.plain 4) ([(1, 1)] ++ (3, 1) :: [(1, 1)])%Z (Scalar 1) (-1) 1
     = Epochs_init (Examples.plain 4) [(1, 1)%Z] (Scalar 1) (-1) 1.
Proof.
  apply (@out_of_bounds_marker_ends_processing
           (Examples.plain 4) (Scalar 1) (-1) 1 [(1, 1)%Z] [(1, 1)%Z] 3 1
           (3 + -1, 3 + 1)%Q).
  - reflexivity.
  - reflexivity.
  - apply Z.leb_le. vm_compute. reflexivity.
Defined.

(** ** No accepted marker *)

(** C7, as the code has it.  When no marker is accepted the construction
    never returns a collection: it raises.  When the marker loop itself
    completes, the exception is the ValueError of the minimum of an empty
    list (line 70). *)
Theorem no_accepted_marker_raises
        (raw : Raw) (events : list marker) (event_id : event_id_spec) (tmin tmax : Q)
        (Hnone : accepted_markers raw (my_event_id_of event_id) tmin tmax events = []) :
  raises (Epochs_init raw events event_id tmin tmax)
  /\ (forall st, extract raw event_id tmin tmax events = Ok st ->
                 Epochs_init raw events event_id tmin tmax = Raise ValueError).
Proof.
  assert (Hst : forall st, extract raw event_id tmin tmax events = Ok st ->
                           Epochs_init raw events event_id tmin tmax = Raise ValueError).
  { intros st Hex. unfold Epochs_init. rewrite Hex. simpl.
    destruct (extract_accepted _ _ _ _ _ Hex) as [_ [_ [Hk Hm]]].
    rewrite Hnone in Hk, Hm. simpl in Hk, Hm.
    rewrite Hk. simpl. unfold assemble. rewrite Hm. reflexivity. }
  split; [|assumption].
  destruct (extract raw event_id tmin tmax events) as [st|e] eqn:Hex.
  - exists ValueError. eapply Hst. reflexivity.
  - exists e. unfold Epochs_init. rewrite Hex. reflexivity.
Qed.

Lemma no_accepted_marker_raises_witness :
  raises (Epochs_init (Examples.plain 1) [(0, 2)%Z] (Scalar 1) (-1) 0)
  /\ (forall st, extract (Examples.plain 1) (Scalar 1) (-1) 0 [(0, 2)%Z] = Ok st ->
                 Epochs_init (Examples.plain 1) [(0, 2)%Z] (Scalar 1) (-1) 0
                 = Raise ValueError).
Proof.
  apply (@no_accepted_marker_raises (Examples.plain 1) [(0, 2)%Z] (Scalar 1) (-1) 0).
  reflexivity.
Defined.

(** C7 as stated asks for a dedicated NoEpochsError; the exception that
    reaches the caller is numpy's ValueError. *)
Lemma no_accepted_marker_is_ValueError :
  accepted_markers (Examples.plain 1) [1%Z] (-1) 0 [(0, 2)%Z] = []
  /\ Epochs_init (Examples.plain 1) [(0, 2)%Z] (Scalar 1) (-1) 0 = Raise ValueError
  /\ exn_name ValueError <> "NoEpochsError"%string.
Proof.
  split; [reflexivity|]. split; [reflexivity|]. discriminate.
Qed.

(** ** Discrete events with an empty or reversed interval *)

Lemma assert_array_less_In df ev :
  assert_array_less df = true -> In ev (drows df) -> (stime ev < etime ev)%Q.
Proof.
  unfold assert_array_less. rewrite forallb_forall. intros H Hin.
  specialize (H ev Hin). unfold Qlt_bool in H. apply negb_true_iff in H.
  apply Qnot_le_lt. intros Hle. apply Qle_bool_iff in Hle. congruence.
Qed.

Lemma scan_kinds_bad_table raw etype df ev :
  In etype (firstn 3 (event_types raw)) ->
  getattr raw etype = Some df ->
  In ev (drows df) ->
  (etime ev <= stime ev)%Q ->
  forall this_id a b parsed,
    length parsed = 3%nat ->
    raises (scan_kinds raw this_id a b (event_types raw) parsed).
Proof.
  intros Hin Hg Hev Hbad this_id a b parsed Hlen.
  destruct (scan_kinds raw this_id a b (event_types raw) parsed) as [ps|e] eqn:Hs;
    [|exists e; reflexivity].
  exfalso. apply In_nth_error in Hin. destruct Hin as [k Hk].
  rewrite nth_error_firstn in Hk.
  destruct (k <? 3)%nat eqn:Hk3; [|discriminate]. apply Nat.ltb_lt in Hk3.
  destruct (scan_kinds_checked _ _ _ _ _ _ Hs Hk) as [df' [Hg' Ha]]; [lia|].
  rewrite Hg in Hg'. inversion Hg'; subst df'.
  pose proof (assert_array_less_In _ _ Ha Hev) as Hlt.
  apply (Qlt_not_le _ _ Hlt). assumption.
Qed.

Lemma loop_never_accepts raw ids tmin tmax events st st' :
  (forall this_id a b,
      raises (scan_kinds raw this_id a b (event_types raw) (parsed_inds st))) ->
  loop raw ids tmin tmax events st = Ok st' -> st' = st.
Proof.
  intros Hscan. induction events as [|[event this_id] rest IH]; simpl; intros H.
  - inversion H; reflexivity.
  - destruct (admissible ids this_id); simpl in H; [|auto].
    destruct (window raw tmin tmax event) as [w|e]; simpl in H; [|discriminate].
    destruct (out_of_bounds raw (time_as_index raw (fst w), time_as_index raw (snd w)));
      [inversion H; reflexivity|].
    destruct (Hscan this_id (fst w) (snd w)) as [e He]. rewrite He in H. discriminate.
Qed.

(** C8.  When one of the discrete tables named by the recording's event
    types (the three that the loop pairs with the three index dicts) holds
    an event whose start time is not below its end time, the construction
    aborts: it raises and returns no collection. *)
Theorem invalid_interval_aborts_construction
        (raw : Raw) (events : list marker) (event_id : event_id_spec) (tmin tmax : Q)
        (etype : string) (df : dtable) (ev : devent)
        (Hkind : In etype (firstn 3 (event_types raw)))
        (Htable : getattr raw etype = Some df)
        (Hevent : In ev (drows df))
        (Hbad : (stime ev >= etime ev)%Q) :
  raises (Epochs_init raw events event_id tmin tmax).
Proof.
  destruct (extract raw event_id tmin tmax events) as [st|e] eqn:Hex.
  - assert (Hst : st = init_state (my_event_id_of event_id)).
    { unfold extract in Hex. eapply loop_never_accepts; [|exact Hex].
      intros this_id a b. eapply scan_kinds_bad_table; eauto. }
    exists ValueError. unfold Epochs_init. rewrite Hex. subst st. reflexivity.
  - exists e. unfold Epochs_init. rewrite Hex. reflexivity.
Qed.

Lemma invalid_interval_aborts_construction_witness :
  raises (Epochs_init
            (Examples.recording 3 (Some Examples.no_events) (Some Examples.no_events)
                                (Some Examples.reversed_blink))
            [(1, 1)%Z] (Scalar 1) (-1) 1).
Proof.
  apply (@invalid_interval_aborts_construction
           (Examples.recording 3 (Some Examples.no_events) (Some Examples.no_events)
                               (Some Examples.reversed_blink))
           [(1, 1)%Z] (Scalar 1) (-1) 1 "blinks"
           Examples.reversed_blink
           {| stime := 1; etime := 1; attrs := [] |}).
  - simpl. right. right. left. reflexivity.
  - reflexivity.
  - simpl. left. reflexivity.
  - simpl. apply Qle_refl.
Defined.

(** ** The relative time axis *)

Lemma Epochs_init_Ok raw events event_id tmin tmax ep :
  Epochs_init raw events event_id tmin tmax = Ok ep ->
  exists st kept a d0 missing d,
    extract raw event_id tmin tmax events = Ok st
    /\ take_rows events (keep_idx st) = Ok kept
    /\ assemble raw event_id st = Ok a
    /\ index_table raw (as_n_epochs a) (as_data a) = Ok (d0, missing)
    /\ overlay raw (parsed_inds st) missing d0 = Ok d
    /\ ep = {| self_info := event_types raw;
               self_event_id := event_id;
               self_tmin := tmin;
               self_tmax := tmax;
               self_events := kept;
               self_times := linspace tmin tmax (as_min_samples a);
               self_n_times := as_min_samples a;
               self_data := d;
               self_missing := missing |}.
Proof.
  unfold Epochs_init. intros H.
  apply bind_Ok in H. destruct H as [st [H1 H]].
  apply bind_Ok in H. destruct H as [kept [H2 H]].
  apply bind_Ok in H. destruct H as [a [H3 H]].
  apply bind_Ok in H. destruct H as [[d0 missing] [H4 H]].
  apply bind_Ok in H. destruct H as [d [H5 H]].
  inversion H. exists st, kept, a, d0, missing, d. repeat split; assumption.
Qed.

Lemma assemble_min_samples raw event_id st a :
  assemble raw event_id st = Ok a -> np_min (min_samples st) = Ok (as_min_samples a).
Proof.
  unfold assemble. intros H.
  destruct (np_min (min_samples st)) as [n|e]; simpl in H; [|discriminate].
  destruct (assemble_groups raw event_id n (sample_inds st)) as [g|e]; simpl in H;
    [|discriminate].
  destruct (sample_inds st); [discriminate|].
  destruct (all_min_samples (snd g) n); [|discriminate].
  inversion H. reflexivity.
Qed.

Lemma linspace_length start stop num : length (linspace start stop num) = num.
Proof.
  destruct num as [|[|d]]; simpl; try reflexivity.
  rewrite length_app, length_map, length_seq. simpl. lia.
Qed.

Lemma inject_Z_succ (k : nat) :
  (inject_Z (Z.of_nat (S k)) == inject_Z (Z.of_nat k) + 1)%Q.
Proof.
  rewrite Nat2Z.inj_succ. unfold Z.succ. rewrite inject_Z_plus. reflexivity.
Qed.

Lemma inject_Z_succ_pos (k : nat) : (0 < inject_Z (Z.of_nat (S k)))%Q.
Proof.
  change 0%Q with (inject_Z 0). rewrite <- Zlt_Qlt. lia.
Qed.

(** In exact arithmetic the points are evenly spaced and, for
    [start < stop], strictly increasing. *)
Lemma linspace_consecutive start stop d i a b :
  nth_error (linspace start stop (S (S d))) i = Some a ->
  nth_error (linspace start stop (S (S d))) (S i) = Some b ->
  (b - a == (stop - start) / inject_Z (Z.of_nat (S d)))%Q.
Proof.
  unfold linspace.
  set (step := ((stop - start) / inject_Z (Z.of_nat (S d)))%Q).
  set (f := fun k : nat => (start + inject_Z (Z.of_nat k) * step)%Q).
  intros Ha Hb.
  assert (Hlen : length (map f (seq 0 (S d))) = S d)
    by (rewrite length_map, length_seq; reflexivity).
  assert (Hmap : forall k, (k < S d)%nat ->
                           nth_error (map f (seq 0 (S d)) ++ [stop]) k = Some (f k)).
  { intros k Hk. rewrite nth_error_app1 by lia.
    rewrite nth_error_map, nth_error_seq.
    apply Nat.ltb_lt in Hk. rewrite Hk. reflexivity. }
  pose proof (inject_Z_succ_pos d) as Hpos.
  assert (Hne : ~ (inject_Z (Z.of_nat (S d)) == 0)%Q).
  { intros H0. rewrite H0 in Hpos. apply (Qlt_irrefl _ Hpos). }
  destruct (Nat.lt_ge_cases (S i) (S d)) as [Hlt|Hge].
  - rewrite Hmap in Ha by lia. rewrite Hmap in Hb by lia.
    inversion Ha; inversion Hb; subst a b. unfold f.
    rewrite inject_Z_succ. ring.
  - destruct (Nat.eq_dec i d) as [->|Hneq].
    + rewrite Hmap in Ha by lia. inversion Ha; subst a.
      rewrite nth_error_app2 in Hb by lia. rewrite Hlen, Nat.sub_diag in Hb.
      inversion Hb; subst b. unfold f, step.
      rewrite inject_Z_succ in *. field. assumption.
    + assert (Hnone : nth_error (map f (seq 0 (S d)) ++ [stop]) (S i) = None).
      { apply nth_error_None. rewrite length_app, Hlen. simpl. lia. }
      rewrite Hnone in Hb. discriminate.
Qed.

Lemma linspace_evenly_spaced start stop num : evenly_spaced (linspace start stop num).
Proof.
  destruct num as [|[|d]].
  - exists 0%Q. intros [|i] a b H; discriminate.
  - exists 0%Q. intros [|i] a b _ H; simpl in H; [discriminate|destruct i; discriminate].
  - exists ((stop - start) / inject_Z (Z.of_nat (S d)))%Q.
    intros i a b. apply linspace_consecutive.
Qed.

Lemma linspace_strictly_increasing start stop num :
  (start < stop)%Q -> strictly_increasing (linspace start stop num).
Proof.
  intros Hlt. destruct num as [|[|d]].
  - intros [|i] a b H; discriminate.
  - intros [|i] a b _ H; simpl in H; [discriminate|destruct i; discriminate].
  - intros i a b Ha Hb.
    pose proof (linspace_consecutive _ _ _ _ Ha Hb) as Hstep.
    assert (Hpos : (0 < (stop - start) / inject_Z (Z.of_nat (S d)))%Q).
    { apply Qlt_shift_div_l; [apply inject_Z_succ_pos|].
      rewrite Qmult_0_l. rewrite <- (Qplus_opp_r start).
      apply Qplus_lt_l. assumption. }
    rewrite <- Hstep in Hpos. apply (Qplus_lt_l _ _ (- a)).
    rewrite Qplus_opp_r. assumption.
Qed.

(** C10, as the code has it.  After a successful construction the
    [times] attribute is [np.linspace(tmin, tmax, n)] for [n] the minimum
    window length: it has exactly [n] points, starts at [tmin] when it has
    a point, and ends at [tmax] when it has at least two points; with a
    single point the axis is [tmin] alone.  The length and the two end
    points are those of the floating-point result; the points between them
    are [tmin + i * (tmax - tmin) / (n - 1)], which [linspace] gives in
    exact arithmetic and numpy rounds: the exact points are evenly spaced
    and, for [tmin < tmax], strictly increasing, the rounded ones only up
    to rounding. *)
Theorem relative_time_axis_is_linspace
        (raw : Raw) (events : list marker) (event_id : event_id_spec) (tmin tmax : Q)
        (ep : Epochs)
        (Hok : Epochs_init raw events event_id tmin tmax = Ok ep) :
  (exists st, extract raw event_id tmin tmax events = Ok st
              /\ np_min (min_samples st) = Ok (self_n_times ep))
  /\ self_times ep = linspace tmin tmax (self_n_times ep)
  /\ length (self_times ep) = self_n_times ep
  /\ ((1 <= self_n_times ep)%nat ->
      exists t0, hd_error (self_times ep) = Some t0 /\ (t0 == tmin)%Q)
  /\ ((2 <= self_n_times ep)%nat -> last (self_times ep) tmin = tmax)
  /\ (self_n_times ep = 1%nat -> self_times ep = [tmin])
  /\ evenly_spaced (linspace tmin tmax (self_n_times ep))
  /\ ((tmin < tmax)%Q -> strictly_increasing (linspace tmin tmax (self_n_times ep))).
Proof.
  destruct (Epochs_init_Ok _ _ _ _ _ Hok)
    as [st [kept [a [d0 [missing [d [H1 [_ [H3 [_ [_ Hep]]]]]]]]]]].
  subst ep. simpl.
  split; [exists st; split; [assumption | apply assemble_min_samples with (1 := H3)]|].
  split; [reflexivity|].
  split; [apply linspace_length|].
  split; [|split; [|split; [|split]]].
  - intros Hn. destruct (as_min_samples a) as [|[|n]]; [lia | |].
    + exists tmin. split; reflexivity.
    + eexists. split; [reflexivity|]. simpl. ring.
  - intros Hn. destruct (as_min_samples a) as [|[|n]]; [lia | lia |].
    unfold linspace. apply last_last.
  - intros Hn. rewrite Hn. reflexivity.
  - apply linspace_evenly_spaced.
  - apply linspace_strictly_increasing.
Qed.

Lemma relative_time_axis_is_linspace_witness :
  exists ep,
    Epochs_init (Examples.plain 3) [(0, 1)%Z] (Scalar 1) (-1) 2 = Ok ep
    /\ self_n_times ep = 3%nat
    /\ length (self_times ep) = 3%nat
    /\ (exists t0, hd_error (self_times ep) = Some t0 /\ (t0 == -1)%Q)
    /\ last (self_times ep) (-1)%Q = 2%Q.
Proof.
  destruct (Epochs_init (Examples.plain 3) [(0, 1)%Z] (Scalar 1) (-1) 2) as [ep|e] eqn:Hep;
    [|vm_compute in Hep; discriminate].
  exists ep.
  assert (Hn : self_n_times ep = 3%nat).
  { vm_compute in Hep. inversion Hep. reflexivity. }
  destruct (@relative_time_axis_is_linspace
              (Examples.plain 3) [(0, 1)%Z] (Scalar 1) (-1) 2 ep Hep)
    as [_ [_ [Hlen [Hhd [Hlast _]]]]].
  split; [reflexivity|]. split; [assumption|].
  split; [rewrite Hlen; assumption|].
  split; [apply Hhd; lia | apply Hlast; lia].
Defined.

(** C10 as stated fails when the minimum window length is one: the axis
    is [tmin] alone and does not end at [tmax]. *)
Lemma single_point_axis_misses_tmax :
  exists ep,
    Epochs_init (Examples.plain 1) [(0, 1)%Z] (Scalar 1) (-1) 0 = Ok ep
    /\ (-1 < 0)%Q
    /\ self_n_times ep = 1%nat
    /\ self_times ep = [(-1)%Q]
    /\ ~ (last (self_times ep) (-1) == 0)%Q.
Proof.
  eexists. split; [vm_compute; reflexivity|].
  split; [reflexivity|]. split; [reflexivity|]. split; [reflexivity|].
  simpl. intros H. discriminate H.
Qed.

(** ** Dicts *)

Lemma dict_get_append {V : Type} (k c : Z) (v : V) (d : dict (list V)) :
  dict_get (dict_append k v d) c
  = if (c =? k)%Z then option_map (fun l => l ++ [v]) (dict_get d c) else dict_get d c.
Proof.
  induction d as [|[k' l] d IH]; simpl.
  - destruct (c =? k)%Z; reflexivity.
  - destruct (k' =? k)%Z eqn:Hk; simpl.
    + destruct (k' =? c)%Z eqn:Hc.
      * apply Z.eqb_eq in Hk, Hc. subst. rewrite Z.eqb_refl. reflexivity.
      * exact IH.
    + destruct (k' =? c)%Z eqn:Hc.
      * apply Z.eqb_eq in Hc. subst k'. rewrite Hk. reflexivity.
      * exact IH.
Qed.

Lemma dict_get_map_keys {V : Type} (f : Z -> V) (keys : list Z) (c : Z) :
  In c keys -> dict_get (map (fun k => (k, f k)) keys) c = Some (f c).
Proof.
  induction keys as [|k keys IH]; simpl; intros H; [contradiction|].
  destruct (k =? c)%Z eqn:Hk.
  - apply Z.eqb_eq in Hk. subst. reflexivity.
  - destruct H as [H|H]; [subst; rewrite Z.eqb_refl in Hk; discriminate | auto].
Qed.

Lemma dict_get_init (V : Type) (keys : list Z) (c : Z) :
  In c keys -> dict_get (dict_init V keys) c = Some [].
Proof.
  intros H. unfold dict_init.
  apply (dict_get_map_keys (fun _ => @nil V)). apply nodup_In. assumption.
Qed.

Lemma admissible_In ids c : admissible ids c = true <-> In c ids.
Proof.
  unfold admissible. rewrite existsb_exists. split.
  - intros [x [Hx He]]. apply Z.eqb_eq in He. subst. assumption.
  - intros H. exists c. split; [assumption | apply Z.eqb_refl].
Qed.

(** ** The discrete events recorded for a window *)

Lemma where_from_In {A : Type} (p : A -> bool) (l : list A) :
  forall s i,
    In i (where_from p s l)
    <-> (s <= i)%nat /\ exists x, nth_error l (i - s) = Some x /\ p x = true.
Proof.
  induction l as [|x l IH]; intros s i; simpl.
  - split; [contradiction|]. intros [_ [y [H _]]]. destruct (i - s)%nat; discriminate.
  - assert (Hrest : In i (where_from p (S s) l)
                    <-> (S s <= i)%nat /\ exists y, nth_error l (i - S s) = Some y /\ p y = true)
      by apply IH.
    assert (Hstep : (S s <= i)%nat -> (i - s = S (i - S s))%nat) by lia.
    destruct (p x) eqn:Hp; simpl; rewrite Hrest; split.
    + intros [H|[H1 H2]].
      * subst i. split; [lia|]. exists x. rewrite Nat.sub_diag. auto.
      * split; [lia|]. rewrite (Hstep H1). exact H2.
    + intros [H1 [y [H2 H3]]]. destruct (Nat.eq_dec s i) as [He|Hne]; [left; assumption|].
      right. split; [lia|]. exists y. rewrite Hstep in H2 by lia. auto.
    + intros [H1 H2]. split; [lia|]. rewrite (Hstep H1). exact H2.
    + intros [H1 [y [H2 H3]]]. destruct (Nat.eq_dec s i) as [He|Hne].
      * subst i. rewrite Nat.sub_diag in H2. simpl in H2. inversion H2; subst y. congruence.
      * split; [lia|]. exists y. rewrite Hstep in H2 by lia. auto.
Qed.

Lemma np_where_In {A : Type} (p : A -> bool) (l : list A) (i : nat) :
  In i (np_where p l) <-> exists x, nth_error l i = Some x /\ p x = true.
Proof.
  unfold np_where. rewrite where_from_In, Nat.sub_0_r. split.
  - intros [_ H]. exact H.
  - intros H. split; [lia | exact H].
Qed.

Lemma within_window_iff (s e a b : Q) :
  (s < e)%Q ->
  (Qle_bool a s && Qle_bool e b = true <-> interval_within s e a b).
Proof.
  intros Hse. rewrite andb_true_iff, !Qle_bool_iff. unfold interval_within. split.
  - intros [Has Heb] t Hst Hte. split.
    + eapply Qle_trans; eassumption.
    + eapply Qlt_le_trans; eassumption.
  - intros H. split.
    + apply (H s); [apply Qle_refl | assumption].
    + destruct (Qlt_le_dec b e) as [Hbe|Heb]; [|assumption].
      exfalso. destruct (Qlt_le_dec b s) as [Hbs|Hsb].
      * destruct (H s (Qle_refl s) Hse) as [_ Hsb].
        apply (Qlt_irrefl s). eapply Qlt_trans; eassumption.
      * destruct (H b Hsb Hbe) as [_ Hbb]. apply (Qlt_irrefl b). assumption.
Qed.

Lemma event_in_window_In df a b i :
  assert_array_less df = true ->
  (In i (event_in_window df a b)
   <-> exists ev, nth_error (drows df) i = Some ev
                  /\ interval_within (stime ev) (etime ev) a b).
Proof.
  intros Hless. unfold event_in_window. rewrite np_where_In.
  split; intros [ev [Hev H]]; exists ev; (split; [assumption|]);
    pose proof (assert_array_less_In _ _ Hless (nth_error_In _ _ Hev)) as Hlt;
    apply (@within_window_iff _ _ a b Hlt); assumption.
Qed.

Lemma record_kinds_nth raw c a b etypes :
  forall parsed k etype df p,
    nth_error etypes k = Some etype ->
    getattr raw etype = Some df ->
    nth_error parsed k = Some p ->
    nth_error (record_kinds raw c a b etypes parsed) k
    = Some (dict_append c (event_in_window df a b) p).
Proof.
  induction etypes as [|e etypes IH]; intros parsed k etype df p Hk Hg Hp.
  - destruct k; discriminate.
  - destruct parsed as [|q parsed]; [destruct k; discriminate|].
    destruct k as [|k]; simpl in *.
    + inversion Hk; inversion Hp; subst. rewrite Hg. reflexivity.
    + eapply IH; eassumption.
Qed.

Section ParsedFold.

Variables (raw : Raw) (tmin tmax : Q).
Variables (k : nat) (etype : string) (df : dtable).
Hypothesis Hkind : nth_error (event_types raw) k = Some etype.
Hypothesis Htable : getattr raw etype = Some df.

Lemma fold_accept_parsed acc : forall st p,
  (forall m, In m acc -> exists w, window raw tmin tmax (fst m) = Ok w) ->
  nth_error (parsed_inds st) k = Some p ->
  exists p',
    nth_error (parsed_inds (fold_left (accept raw tmin tmax) acc st)) k = Some p'
    /\ forall c, dict_get p' c
                 = option_map (fun l => l ++ map (recorded raw tmin tmax df)
                                                 (with_code c acc))
                              (dict_get p c).
Proof.
  induction acc as [|m acc IH]; intros st p Hw Hp; simpl.
  - exists p. split; [assumption|]. intros c.
    destruct (dict_get p c); simpl; [rewrite app_nil_r|]; reflexivity.
  - destruct (Hw m (or_introl eq_refl)) as [w Hm].
    set (p1 := dict_append (snd m) (event_in_window df (fst w) (snd w)) p).
    destruct (IH (accept raw tmin tmax st m) p1) as [p' [Hp' Hget]].
    { intros m' Hm'. apply Hw. right. assumption. }
    { unfold accept. rewrite Hm. simpl. apply record_kinds_nth with (etype := etype); assumption. }
    exists p'. split; [assumption|]. intros c. rewrite Hget. unfold p1.
    rewrite dict_get_append. rewrite (Z.eqb_sym c (snd m)).
    assert (Hrec : recorded raw tmin tmax df m = event_in_window df (fst w) (snd w)).
    { unfold recorded, marker_window. rewrite Hm. reflexivity. }
    destruct (snd m =? c)%Z; [|reflexivity].
    destruct (dict_get p c); simpl; [|reflexivity].
    rewrite Hrec, <- app_assoc. reflexivity.
Qed.

End ParsedFold.

Lemma fold_accept_parsed_length raw tmin tmax acc : forall st,
  length (parsed_inds (fold_left (accept raw tmin tmax) acc st)) = length (parsed_inds st).
Proof.
  induction acc as [|m acc IH]; intros st; simpl; [reflexivity|].
  rewrite IH. unfold accept. destruct (window raw tmin tmax (fst m)); simpl; [|reflexivity].
  apply record_kinds_length.
Qed.

(** Once a marker has been accepted, every table the loop pairs with an
    index dict has been read and has passed the assertion of line 62. *)
Lemma loop_checked raw ids tmin tmax events : forall st st',
  loop raw ids tmin tmax events st = Ok st' ->
  accepted_markers raw ids tmin tmax events <> [] ->
  forall k etype,
    nth_error (event_types raw) k = Some etype ->
    (k < length (parsed_inds st))%nat ->
    exists df, getattr raw etype = Some df /\ assert_array_less df = true.
Proof.
  induction events as [|[event this_id] rest IH]; intros st st' H Hacc k etype Hk Hlen;
    simpl in *; [congruence|].
  destruct (admissible ids this_id); simpl in *; [|eapply IH; eauto].
  destruct (window raw tmin tmax event) as [w|e]; simpl in *; [|congruence].
  unfold window_inds in *. simpl in *.
  destruct (out_of_bounds raw (time_as_index raw (fst w), time_as_index raw (snd w)));
    [congruence|].
  apply bind_Ok in H. destruct H as [ps [Hs _]].
  eapply scan_kinds_checked; eassumption.
Qed.

(** C4.  After the marker loop, the dict of each discrete-event kind holds,
    under every admissible code, one index array per accepted marker of
    that code, in order; the array of a marker holds exactly the rows of
    that kind's table whose interval [[stime, etime)] lies within the
    marker's window [[this_tmin, this_tmax)].  Each kind is read from its
    own table. *)
Theorem parsed_inds_are_events_within_window
        (raw : Raw) (events : list marker) (event_id : event_id_spec) (tmin tmax : Q)
        (st : loop_state) (k : nat) (etype : string) (p : dict (list (list nat))) (c : Z)
        (Hex : extract raw event_id tmin tmax events = Ok st)
        (Hkind : nth_error (event_types raw) k = Some etype)
        (Hdict : nth_error (parsed_inds st) k = Some p)
        (Hcode : In c (my_event_id_of event_id)) :
  let acc_c :=
    with_code c (accepted_markers raw (my_event_id_of event_id) tmin tmax events) in
  exists recs,
    dict_get p c = Some recs
    /\ length recs = length acc_c
    /\ forall j m,
        nth_error acc_c j = Some m ->
        exists w df rec,
          window raw tmin tmax (fst m) = Ok w
          /\ getattr raw etype = Some df
          /\ nth_error recs j = Some rec
          /\ forall i,
              In i rec
              <-> exists ev, nth_error (drows df) i = Some ev
                             /\ interval_within (stime ev) (etime ev) (fst w) (snd w).
Proof.
  intros acc_c.
  set (ids := my_event_id_of event_id) in *.
  set (acc := accepted_markers raw ids tmin tmax events) in *.
  destruct (extract_accepted _ _ _ _ _ Hex) as [Hst _]. fold ids acc in Hst.
  assert (Hwin : forall m, In m acc -> exists w, window raw tmin tmax (fst m) = Ok w).
  { intros m Hm. apply accepted_markers_In in Hm.
    destruct Hm as [_ [_ [w [Hw _]]]]. exists w; assumption. }
  assert (Hk3 : (k < 3)%nat).
  { assert (Hsome : nth_error (parsed_inds st) k <> None) by congruence.
    apply nth_error_Some in Hsome. rewrite Hst, fold_accept_parsed_length in Hsome.
    exact Hsome. }
  assert (Hp0 : nth_error (parsed_inds (init_state ids)) k = Some (dict_init _ ids)).
  { destruct k as [|[|[|k]]]; simpl; try reflexivity. lia. }
  assert (Hcase : acc = [] \/ acc <> []).
  { destruct acc; [left; reflexivity | right; discriminate]. }
  destruct Hcase as [Hnil|Hcons].
  - rewrite Hnil in Hst. cbn [fold_left] in Hst. rewrite Hst, Hp0 in Hdict.
    inversion Hdict; subst p.
    exists []. split; [apply dict_get_init; assumption|].
    split; [unfold acc_c; rewrite Hnil; reflexivity|].
    intros j m Hj. unfold acc_c in Hj. rewrite Hnil in Hj. destruct j; discriminate.
  - destruct (@loop_checked raw ids tmin tmax events _ _ Hex Hcons k etype Hkind)
      as [df [Hg Hless]].
    { simpl. assumption. }
    destruct (fold_accept_parsed raw tmin tmax k Hkind Hg acc (init_state ids) Hwin Hp0)
      as [p' [Hp' Hget]].
    rewrite <- Hst, Hdict in Hp'. inversion Hp'; subst p'.
    exists (map (fun m => event_in_window df (fst (marker_window raw tmin tmax m))
                                          (snd (marker_window raw tmin tmax m)))
                acc_c).
    split; [rewrite Hget, dict_get_init by assumption; reflexivity|].
    split; [apply length_map|].
    intros j m Hj.
    assert (Hm : In m acc).
    { apply nth_error_In in Hj. unfold acc_c, with_code in Hj.
      apply filter_In in Hj. tauto. }
    destruct (Hwin m Hm) as [w Hw].
    exists w, df, (event_in_window df (fst w) (snd w)).
    split; [assumption|]. split; [assumption|]. split.
    + rewrite nth_error_map, Hj. simpl. unfold marker_window. rewrite Hw. reflexivity.
    + intros i. apply event_in_window_In. assumption.
Qed.

Lemma parsed_inds_are_events_within_window_witness :
  exists rec,
    rec = [0; 1]%nat
    /\ forall i,
        In i rec
        <-> exists ev, nth_error (drows Examples.two_saccades) i = Some ev
                       /\ interval_within (stime ev) (etime ev) (-1) 2.
Proof.
  pose (raw := Examples.recording 3 (Some Examples.two_saccades)
                                  (Some Examples.no_events) (Some Examples.no_events)).
  destruct (extract raw (Scalar 1) (-1) 2 [(0, 1)%Z]) as [st|e] eqn:Hex;
    [|vm_compute in Hex; discriminate].
  assert (Hst : parsed_inds st
                = [[(1%Z, [[0; 1]%nat])]; [(1%Z, [[]])]; [(1%Z, [[]])]]).
  { vm_compute in Hex. inversion Hex. reflexivity. }
  assert (Hp : nth_error (parsed_inds st) 0 = Some [(1%Z, [[0; 1]%nat])])
    by (rewrite Hst; reflexivity).
  destruct (@parsed_inds_are_events_within_window
              raw [(0, 1)%Z] (Scalar 1) (-1) 2 st 0 "saccades"%string
              [(1%Z, [[0; 1]%nat])] 1%Z Hex eq_refl Hp (or_introl eq_refl))
    as [recs [Hget [_ Hall]]].
  destruct (Hall 0%nat (0, 1)%Z eq_refl) as [w [df [rec [Hw [Hg [Hrec Hin]]]]]].
  simpl in Hget. inversion Hget; subst recs.
  simpl in Hrec. inversion Hrec; subst rec.
  vm_compute in Hw. inversion Hw; subst w.
  vm_compute in Hg. inversion Hg; subst df.
  exists [0; 1]%nat. split; [reflexivity | exact Hin].
Defined.

(** ** Sorting and filtering *)

Lemma insert_row_perm x l : Permutation (insert_row x l) (x :: l).
Proof.
  induction l as [|y l IH]; simpl; [apply Permutation_refl|].
  destruct (sort_le x y); [apply Permutation_refl|].
  eapply perm_trans; [apply perm_skip; exact IH | apply perm_swap].
Qed.

Lemma sort_rows_perm l : Permutation (sort_rows l) l.
Proof.
  induction l as [|x l IH]; simpl; [constructor|].
  eapply perm_trans; [apply insert_row_perm | apply perm_skip; exact IH].
Qed.

Lemma filter_perm {A : Type} (p : A -> bool) (l l' : list A) :
  Permutation l l' -> Permutation (filter p l) (filter p l').
Proof.
  induction 1 as [|x l l' H IH|x y l|l l' l'' H1 IH1 H2 IH2]; simpl.
  - constructor.
  - destruct (p x); [apply perm_skip|]; assumption.
  - destruct (p x), (p y); try apply Permutation_refl. apply perm_swap.
  - eapply perm_trans; eassumption.
Qed.

Lemma filter_flat_map {A B : Type} (p : B -> bool) (q : A -> bool) (f : A -> list B)
      (l : list A) :
  (forall x, In x l -> filter p (f x) = if q x then f x else []) ->
  filter p (flat_map f l) = flat_map f (filter q l).
Proof.
  induction l as [|x l IH]; simpl; intros H; [reflexivity|].
  rewrite filter_app, (H x (or_introl eq_refl)), IH by (intros y Hy; apply H; right; exact Hy).
  destruct (q x); reflexivity.
Qed.

Lemma flat_map_const_length {A B : Type} (f : A -> list B) (n : nat) (l : list A) :
  (forall x, In x l -> length (f x) = n) ->
  length (flat_map f l) = (length l * n)%nat.
Proof.
  induction l as [|x l IH]; simpl; intros H; [reflexivity|].
  rewrite length_app, (H x (or_introl eq_refl)), IH by (intros y Hy; apply H; right; exact Hy).
  reflexivity.
Qed.

(** Grouping a list by a key drawn from a duplicate-free list of keys
    rearranges it. *)
Lemma group_by_key_perm {A : Type} (key : A -> Z) (keys : list Z) :
  NoDup keys ->
  forall l : list A,
    (forall x, In x l -> In (key x) keys) ->
    Permutation (flat_map (fun c => filter (fun x => (key x =? c)%Z) l) keys) l.
Proof.
  induction 1 as [|k keys Hk Hnd IH]; intros l Hl; simpl.
  - destruct l as [|x l]; [constructor|]. destruct (Hl x (or_introl eq_refl)).
  - assert (Hsplit : Permutation l (filter (fun x => (key x =? k)%Z) l
                                    ++ filter (fun x => negb (key x =? k)%Z) l)).
    { clear. induction l as [|x l IHl]; simpl; [constructor|].
      destruct (key x =? k)%Z; simpl.
      - apply perm_skip. exact IHl.
      - eapply perm_trans; [apply perm_skip; exact IHl|]. apply Permutation_middle. }
    eapply perm_trans; [|apply Permutation_sym; exact Hsplit].
    apply Permutation_app_head.
    assert (Hsame : flat_map (fun c => filter (fun x => (key x =? c)%Z) l) keys
                    = flat_map (fun c => filter (fun x => (key x =? c)%Z)
                                                (filter (fun x => negb (key x =? k)%Z) l))
                               keys).
    { rewrite !flat_map_concat_map. f_equal. apply map_ext_in. intros c Hc.
      assert (Hck : c <> k) by (intros ->; contradiction).
      clear -Hck. induction l as [|x l IHl]; simpl; [reflexivity|].
      destruct (key x =? k)%Z eqn:Hxk; simpl.
      - apply Z.eqb_eq in Hxk.
        assert (Hxc : (key x =? c)%Z = false) by (apply Z.eqb_neq; congruence).
        rewrite Hxc. exact IHl.
      - destruct (key x =? c)%Z; [f_equal|]; exact IHl. }
    rewrite Hsame. apply IH. intros x Hx. apply filter_In in Hx. destruct Hx as [Hx Hne].
    destruct (Hl x Hx) as [He|Hin]; [|assumption].
    subst k. rewrite Z.eqb_refl in Hne. discriminate.
Qed.

Lemma fold_min_spec (l : list nat) : forall x,
  (fold_left Nat.min l x = x \/ In (fold_left Nat.min l x) l)
  /\ (fold_left Nat.min l x <= x)%nat
  /\ forall z, In z l -> (fold_left Nat.min l x <= z)%nat.
Proof.
  induction l as [|y l IH]; intros x; simpl.
  - split; [left; reflexivity|]. split; [lia|]. intros z [].
  - destruct (IH (Nat.min x y)) as [Hin [Hle Hall]].
    split; [|split].
    + destruct Hin as [E|I]; [|right; right; exact I].
      destruct (Nat.min_spec x y) as [[_ Hm]|[_ Hm]].
      * left. rewrite E. exact Hm.
      * right. left. rewrite E. symmetry. exact Hm.
    + lia.
    + intros z [Hz|Hz]; [subst z; lia | apply Hall; exact Hz].
Qed.

Lemma np_min_spec (l : list nat) (n : nat) :
  np_min l = Ok n -> In n l /\ forall x, In x l -> (n <= x)%nat.
Proof.
  destruct l as [|x l]; simpl; [discriminate|]. intros H. inversion H as [Hn].
  destruct (fold_min_spec l x) as [Hin [Hle Hall]]. split.
  - destruct Hin as [E|I]; [left; symmetry; exact E | right; exact I].
  - intros z [Hz|Hz]; [subst z; exact Hle | apply Hall; exact Hz].
Qed.

(** ** The index ranges kept by the loop *)

Lemma dict_append_keys {V : Type} (f : Z -> list V) (keys : list Z) (k : Z) (v : V) :
  dict_append k v (map (fun c => (c, f c)) keys)
  = map (fun c => (c, if (c =? k)%Z then f c ++ [v] else f c)) keys.
Proof.
  unfold dict_append. rewrite map_map. apply map_ext. intros c. simpl.
  destruct (c =? k)%Z; reflexivity.
Qed.

Lemma fold_dict_append {A V : Type} (key : A -> Z) (val : A -> V) (keys : list Z)
      (l : list A) : forall f : Z -> list V,
  fold_left (fun d x => dict_append (key x) (val x) d) l (map (fun c => (c, f c)) keys)
  = map (fun c => (c, f c ++ map val (filter (fun x => (key x =? c)%Z) l))) keys.
Proof.
  induction l as [|x l IH]; intros f; simpl.
  - apply map_ext. intros c. rewrite app_nil_r. reflexivity.
  - rewrite dict_append_keys, IH. apply map_ext. intros c.
    rewrite (Z.eqb_sym c (key x)). destruct (key x =? c)%Z; simpl; [|reflexivity].
    rewrite <- app_assoc. reflexivity.
Qed.

Lemma fold_accept_sample_inds raw tmin tmax acc : forall st,
  (forall m, In m acc -> exists w, window raw tmin tmax (fst m) = Ok w) ->
  sample_inds (fold_left (accept raw tmin tmax) acc st)
  = fold_left (fun d x => dict_append (code_of x) (entry raw tmin tmax x) d)
              (combine acc (seq (ii st) (length acc))) (sample_inds st).
Proof.
  induction acc as [|m acc IH]; intros st Hw; simpl; [reflexivity|].
  destruct (Hw m (or_introl eq_refl)) as [w Hm].
  rewrite IH by (intros m' Hm'; apply Hw; right; exact Hm').
  unfold accept. rewrite Hm. reflexivity.
Qed.

Lemma sample_inds_structure raw event_id tmin tmax events st :
  extract raw event_id tmin tmax events = Ok st ->
  sample_inds st
  = map (fun c => (c, map (entry raw tmin tmax)
                          (filter (fun x => (code_of x =? c)%Z)
                                  (indexed (accepted_markers raw (my_event_id_of event_id)
                                                             tmin tmax events)))))
        (nodup Z.eq_dec (my_event_id_of event_id)).
Proof.
  intros Hex. destruct (extract_accepted _ _ _ _ _ Hex) as [Hst _].
  rewrite Hst, fold_accept_sample_inds.
  - simpl. unfold dict_init.
    apply (fold_dict_append code_of (entry raw tmin tmax) _ _ (fun _ => [])).
  - intros m Hm. apply accepted_markers_In in Hm.
    destruct Hm as [_ [_ [w [Hw _]]]]. exists w; assumption.
Qed.

Lemma indexed_In acc x : In x (indexed acc) -> In (fst x) acc.
Proof.
  unfold indexed. destruct x as [m i]. intros H. apply in_combine_l in H. exact H.
Qed.

Lemma indexed_length acc : length (indexed acc) = length acc.
Proof.
  unfold indexed. rewrite length_combine, length_seq. apply Nat.min_id.
Qed.

Lemma combine_seq_filter {A : Type} (l : list A) : forall s e x,
  nth_error l e = Some x ->
  filter (fun y => (snd y =? s + e)%nat) (combine l (seq s (length l))) = [(x, (s + e)%nat)].
Proof.
  induction l as [|a l IH]; intros s e x He; [destruct e; discriminate|].
  assert (Hnone : forall t k, (k < t)%nat ->
             filter (fun y : A * nat => (snd y =? k)%nat) (combine l (seq t (length l))) = []).
  { clear. induction l as [|b l IHl]; intros t k Hk; simpl; [reflexivity|].
    assert (Hne : (t =? k)%nat = false) by (apply Nat.eqb_neq; lia).
    rewrite Hne. apply IHl. lia. }
  destruct e as [|e]; simpl in *.
  - inversion He; subst a. rewrite Nat.add_0_r, Nat.eqb_refl. f_equal.
    apply Hnone. lia.
  - assert (Hne : (s =? s + S e)%nat = false) by (apply Nat.eqb_neq; lia).
    rewrite Hne. replace (s + S e)%nat with (S s + e)%nat by lia. apply IH. exact He.
Qed.

Lemma indexed_filter acc e m :
  nth_error acc e = Some m ->
  filter (fun y => (snd y =? e)%nat) (indexed acc) = [(m, e)].
Proof.
  intros H. unfold indexed. apply (combine_seq_filter acc 0 e H).
Qed.

(** ** The rows of a group *)

Lemma combine_app_eq {A B : Type} (l1 l2 : list A) (r1 r2 : list B) :
  length l1 = length r1 ->
  combine (l1 ++ l2) (r1 ++ r2) = combine l1 r1 ++ combine l2 r2.
Proof.
  revert r1. induction l1 as [|a l1 IH]; intros [|b r1] H; simpl in *; try discriminate.
  - reflexivity.
  - f_equal. apply IH. lia.
Qed.

Lemma combine_repeat {A B : Type} (l : list A) (v : B) :
  combine l (repeat v (length l)) = map (fun s => (s, v)) l.
Proof.
  induction l as [|a l IH]; simpl; [reflexivity | f_equal; exact IH].
Qed.

Lemma flat_map_map {A B C : Type} (f : B -> list C) (g : A -> B) (l : list A) :
  flat_map f (map g l) = flat_map (fun x => f (g x)) l.
Proof.
  induction l as [|x l IH]; simpl; [reflexivity | rewrite IH; reflexivity].
Qed.

Lemma flat_map_flat_map {A B C : Type} (f : B -> list C) (g : A -> list B) (l : list A) :
  flat_map f (flat_map g l) = flat_map (fun x => flat_map f (g x)) l.
Proof.
  induction l as [|x l IH]; simpl; [reflexivity|].
  rewrite flat_map_app, IH. reflexivity.
Qed.

Lemma flat_map_ext_In {A B : Type} (f g : A -> list B) (l : list A) :
  (forall x, In x l -> f x = g x) -> flat_map f l = flat_map g l.
Proof.
  intros H. rewrite !flat_map_concat_map. f_equal. apply map_ext_in. exact H.
Qed.

Lemma iloc_groups raw n (values : list (list Z * nat)) df :
  iloc (_samples raw) (concat (map (fun v => firstn n (fst v)) values)) = Ok df ->
  df = flat_map (fun e => epoch_samples raw n (fst e)) values
  /\ forall e, In e values ->
               iloc (_samples raw) (firstn n (fst e)) = Ok (epoch_samples raw n (fst e)).
Proof.
  revert df. induction values as [|v values IH]; intros df H; simpl in *.
  - inversion H. split; [reflexivity | intros e []].
  - unfold iloc in H. rewrite mapM_app in H.
    apply bind_Ok in H. destruct H as [ss [Hss H]].
    apply bind_Ok in H. destruct H as [rest [Hrest H]].
    inversion H; subst df. destruct (IH rest Hrest) as [Hr Hall].
    assert (Hv : epoch_samples raw n (fst v) = ss).
    { unfold epoch_samples, iloc. rewrite Hss. reflexivity. }
    split; [rewrite Hv, Hr; reflexivity|].
    intros e [He|He]; [subst e; rewrite Hv; exact Hss | apply Hall; exact He].
Qed.

Lemma epoch_samples_length raw n inds :
  iloc (_samples raw) (firstn n inds) = Ok (epoch_samples raw n inds) ->
  (n <= length inds)%nat ->
  length (epoch_samples raw n inds) = n.
Proof.
  intros H Hn. apply mapM_length in H. rewrite H. apply firstn_length_le. exact Hn.
Qed.

Lemma rows_of_values raw lab n (values : list (list Z * nat)) :
  (forall e, In e values -> length (epoch_samples raw n (fst e)) = n) ->
  map (fun sc => {| s_sample := fst sc; s_event_id := lab; s_epoch_idx := snd sc |})
      (combine (flat_map (fun e => epoch_samples raw n (fst e)) values)
               (concat (map (fun v => repeat (snd v) n) values)))
  = flat_map (epoch_rows raw lab n) values.
Proof.
  induction values as [|v values IH]; intros H; simpl; [reflexivity|].
  pose proof (H v (or_introl eq_refl)) as Hv.
  rewrite combine_app_eq by (rewrite repeat_length; exact Hv).
  rewrite map_app, IH by (intros e He; apply H; right; exact He).
  f_equal. unfold epoch_rows. rewrite <- Hv at 2. rewrite combine_repeat, map_map.
  reflexivity.
Qed.

Lemma group_rows_Ok raw event_id n c values g :
  group_rows raw event_id n c values = Ok g ->
  (forall e, In e values -> (n <= length (fst e))%nat) ->
  values <> []
  /\ event_label event_id c = Ok (label_of event_id c)
  /\ fst g = flat_map (epoch_rows raw (label_of event_id c) n) values
  /\ snd g = map (fun _ => n) values
  /\ forall e, In e values ->
               iloc (_samples raw) (firstn n (fst e)) = Ok (epoch_samples raw n (fst e)).
Proof.
  intros H Hn. unfold group_rows in H.
  destruct values as [|v0 vs] eqn:Hvalues; [discriminate|]. rewrite <- Hvalues in *.
  apply bind_Ok in H. destruct H as [df [Hdf H]].
  apply bind_Ok in H. destruct H as [lab [Hlab H]].
  destruct (iloc_groups raw n values Hdf) as [Hflat Hall].
  assert (Hlen : forall e, In e values -> length (epoch_samples raw n (fst e)) = n).
  { intros e He. apply epoch_samples_length; auto. }
  assert (Hl : label_of event_id c = lab) by (unfold label_of; rewrite Hlab; reflexivity).
  destruct (_ =? _)%nat; [|discriminate]. inversion H; subst g. simpl.
  split; [rewrite Hvalues; discriminate|].
  split; [rewrite Hl; exact Hlab|].
  split; [rewrite Hflat, Hl; apply rows_of_values; exact Hlen|].
  split; [|exact Hall].
  rewrite map_map. apply map_ext_in. intros e He.
  apply firstn_length_le. apply Hn. exact He.
Qed.

Lemma assemble_groups_Ok raw event_id n d : forall g,
  assemble_groups raw event_id n d = Ok g ->
  (forall kv e, In kv d -> In e (snd kv) -> (n <= length (fst e))%nat) ->
  fst g = flat_map (fun kv => flat_map (epoch_rows raw (label_of event_id (fst kv)) n)
                                       (snd kv)) d
  /\ snd g = flat_map (fun kv => map (fun _ => n) (snd kv)) d
  /\ forall kv, In kv d ->
                snd kv <> []
                /\ event_label event_id (fst kv) = Ok (label_of event_id (fst kv))
                /\ forall e, In e (snd kv) ->
                             iloc (_samples raw) (firstn n (fst e))
                             = Ok (epoch_samples raw n (fst e)).
Proof.
  induction d as [|[c values] d IH]; intros g H Hn; simpl in *.
  - inversion H. simpl. split; [reflexivity|]. split; [reflexivity|]. intros kv [].
  - apply bind_Ok in H. destruct H as [g1 [Hg1 H]].
    apply bind_Ok in H. destruct H as [g2 [Hg2 H]].
    inversion H; subst g. simpl.
    destruct (@group_rows_Ok _ _ _ _ _ _ Hg1) as [Hne [Hlab [Hf [Hs Hall]]]].
    { intros e He. apply (Hn (c, values)); [left; reflexivity | exact He]. }
    destruct (IH g2 Hg2) as [Hf2 [Hs2 Hall2]].
    { intros kv e Hkv He. apply (Hn kv); [right; exact Hkv | exact He]. }
    split; [rewrite Hf, Hf2; reflexivity|].
    split; [rewrite Hs, Hs2; reflexivity|].
    intros kv [Hkv|Hkv]; [subst kv; simpl; auto | apply Hall2; exact Hkv].
Qed.

(** ** Equal epoch lengths *)

Lemma assemble_Ok raw event_id st a :
  assemble raw event_id st = Ok a ->
  exists g,
    np_min (min_samples st) = Ok (as_min_samples a)
    /\ assemble_groups raw event_id (as_min_samples a) (sample_inds st) = Ok g
    /\ as_data a = sort_rows (fst g)
    /\ as_n_epochs a = length (snd g).
Proof.
  unfold assemble. intros H.
  apply bind_Ok in H. destruct H as [n [Hn H]].
  apply bind_Ok in H. destruct H as [g [Hg H]].
  destruct (sample_inds st); [discriminate|].
  destruct (all_min_samples (snd g) n); [|discriminate].
  inversion H; subst a. simpl. exists g. auto.
Qed.

Lemma filter_map_const {A B : Type} (p : B -> bool) (f : A -> B) (b : bool) (l : list A) :
  (forall x, p (f x) = b) -> filter p (map f l) = if b then map f l else [].
Proof.
  intros H. induction l as [|x l IH]; simpl; [destruct b; reflexivity|].
  rewrite H, IH. destruct b; reflexivity.
Qed.

(** The table that lines 70-92 assemble, with [n_min] the minimum of the
    raw window lengths of the accepted markers: the table has one block per
    accepted marker and [len(accepted) * n_min] rows in all, and the rows
    of epoch [e] are exactly the samples at the first [n_min] indices of
    the raw range of the [e]-th accepted marker (the trailing indices are
    the ones that are dropped), so every epoch has exactly [n_min] rows. *)
Lemma assembled_blocks
        (raw : Raw) (events : list marker) (event_id : event_id_spec) (tmin tmax : Q)
        (st : loop_state) (a : assembled)
        (Hex : extract raw event_id tmin tmax events = Ok st)
        (Has : assemble raw event_id st = Ok a) :
  let acc := accepted_markers raw (my_event_id_of event_id) tmin tmax events in
  let n_min := as_min_samples a in
  acc <> []
  /\ np_min (map (fun m => length (marker_inds raw tmin tmax m)) acc) = Ok n_min
  /\ In n_min (map (fun m => length (marker_inds raw tmin tmax m)) acc)
  /\ (forall m, In m acc -> (n_min <= length (marker_inds raw tmin tmax m))%nat)
  /\ as_n_epochs a = length acc
  /\ length (as_data a) = (length acc * n_min)%nat
  /\ forall e m,
      nth_error acc e = Some m ->
      exists lab ss,
        event_label event_id (snd m) = Ok lab
        /\ iloc (_samples raw) (firstn n_min (marker_inds raw tmin tmax m)) = Ok ss
        /\ length ss = n_min
        /\ Permutation (filter (fun r => (s_epoch_idx r =? e)%nat) (as_data a))
                       (map (fun s => {| s_sample := s; s_event_id := lab;
                                         s_epoch_idx := e |}) ss)
        /\ length (filter (fun r => (s_epoch_idx r =? e)%nat) (as_data a)) = n_min.
Proof.
  intros acc n_min.
  set (ids := my_event_id_of event_id) in *.
  set (wlen := fun m : marker => length (marker_inds raw tmin tmax m)).
  pose proof Has as Has'. apply assemble_Ok in Has'.
  destruct Has' as [g [Hmin [Hg [Hdata Hepochs]]]]. fold n_min in Hmin, Hg.
  destruct (extract_accepted _ _ _ _ _ Hex) as [_ [_ [_ Hms]]]. fold ids acc wlen in Hms.
  rewrite Hms in Hmin.
  pose proof Hmin as Hspec. apply np_min_spec in Hspec. destruct Hspec as [Hin Hle].
  assert (Hwlen : forall m, In m acc -> (n_min <= wlen m)%nat).
  { intros m Hm. apply Hle. apply in_map. exact Hm. }
  assert (Hne : acc <> []).
  { intros Hnil. rewrite Hnil in Hin. destruct Hin. }
  pose proof Hex as Hstruct. apply sample_inds_structure in Hstruct.
  fold ids acc in Hstruct.
  set (keys := nodup Z.eq_dec ids) in *.
  set (accix := indexed acc) in *.
  set (vals := fun c : Z => map (entry raw tmin tmax)
                                (filter (fun x => (code_of x =? c)%Z) accix)) in *.
  set (rows_of := fun x : marker * nat =>
                    epoch_rows raw (label_of event_id (code_of x)) n_min
                               (entry raw tmin tmax x)).
  assert (Hkey : forall x, In x accix -> In (code_of x) keys).
  { intros x Hx. apply indexed_In in Hx. apply accepted_markers_In in Hx.
    destruct Hx as [_ [Hadm _]]. apply nodup_In. apply admissible_In. exact Hadm. }
  rewrite Hstruct in Hg.
  pose proof Hg as Hgr. apply assemble_groups_Ok in Hgr.
  2:{ intros kv e Hkv He. apply in_map_iff in Hkv. destruct Hkv as [c [Hc _]]. subst kv.
    simpl in He. apply in_map_iff in He. destruct He as [x [Hx Hxin]]. subst e.
    apply filter_In in Hxin. destruct Hxin as [Hxin _]. simpl.
    apply Hwlen. apply indexed_In. exact Hxin. }
  destruct Hgr as [Hf [Hs Hall]].
  assert (Hx_ok : forall x, In x accix ->
             event_label event_id (code_of x) = Ok (label_of event_id (code_of x))
             /\ iloc (_samples raw) (firstn n_min (marker_inds raw tmin tmax (fst x)))
                = Ok (epoch_samples raw n_min (marker_inds raw tmin tmax (fst x)))).
  { intros x Hx.
    destruct (Hall (code_of x, vals (code_of x))) as [_ [Hlab Hil]].
    { apply in_map_iff. exists (code_of x). split; [reflexivity | apply Hkey; exact Hx]. }
    split; [exact Hlab|].
    apply (Hil (entry raw tmin tmax x)). simpl. unfold vals. apply in_map.
    apply filter_In. split; [exact Hx | apply Z.eqb_refl]. }
  assert (Hgroup : Permutation
                     (flat_map (fun c => filter (fun x => (code_of x =? c)%Z) accix) keys)
                     accix).
  { apply group_by_key_perm; [apply NoDup_nodup | exact Hkey]. }
  assert (Hrows : Permutation (as_data a) (flat_map rows_of accix)).
  { rewrite Hdata. eapply perm_trans; [apply sort_rows_perm|].
    rewrite Hf, flat_map_map. simpl.
    assert (Heq : flat_map (fun c => flat_map (epoch_rows raw (label_of event_id c) n_min)
                                              (vals c)) keys
                  = flat_map rows_of
                             (flat_map (fun c => filter (fun x => (code_of x =? c)%Z) accix)
                                       keys)).
    { rewrite flat_map_flat_map. apply flat_map_ext_In. intros c _. unfold vals.
      rewrite flat_map_map. apply flat_map_ext_In. intros x Hx.
      apply filter_In in Hx. destruct Hx as [_ Hc]. apply Z.eqb_eq in Hc.
      unfold rows_of. rewrite Hc. reflexivity. }
    unfold vals in Heq. rewrite Heq. apply Permutation_flat_map. exact Hgroup. }
  assert (Hrows_len : forall x, In x accix -> length (rows_of x) = n_min).
  { intros x Hx. unfold rows_of, epoch_rows. rewrite length_map. simpl.
    apply epoch_samples_length; [apply Hx_ok; exact Hx|].
    apply Hwlen. apply indexed_In. exact Hx. }
  split; [exact Hne|]. split; [exact Hmin|]. split; [exact Hin|]. split; [exact Hwlen|].
  split; [|split].
  - rewrite Hepochs, Hs, flat_map_map. simpl.
    assert (Heq : flat_map (fun c => map (fun _ : list Z * nat => n_min) (vals c)) keys
                  = flat_map (fun _ => [n_min])
                             (flat_map (fun c => filter (fun x => (code_of x =? c)%Z) accix)
                                       keys)).
    { rewrite flat_map_flat_map. apply flat_map_ext_In. intros c _. unfold vals.
      rewrite map_map. generalize (filter (fun x => (code_of x =? c)%Z) accix).
      intros l. induction l as [|y l IHl]; simpl; [reflexivity | f_equal; exact IHl]. }
    unfold vals in Heq. rewrite Heq.
    rewrite (Permutation_length (Permutation_flat_map (fun _ => [n_min]) Hgroup)).
    rewrite (@flat_map_const_length _ _ (fun _ : marker * nat => [n_min]) 1%nat accix)
      by reflexivity.
    unfold accix. rewrite indexed_length. lia.
  - rewrite (Permutation_length Hrows).
    rewrite (@flat_map_const_length _ _ rows_of n_min accix Hrows_len).
    unfold accix. rewrite indexed_length. reflexivity.
  - intros e m He.
    assert (Hsel : filter (fun y : marker * nat => (snd y =? e)%nat) accix = [(m, e)])
      by (apply indexed_filter; exact He).
    assert (Hmx : In (m, e) accix).
    { assert (Hi : In (m, e) (filter (fun y : marker * nat => (snd y =? e)%nat) accix))
        by (rewrite Hsel; left; reflexivity).
      apply filter_In in Hi. tauto. }
    destruct (Hx_ok _ Hmx) as [Hlab Hil]. simpl in Hlab, Hil.
    assert (Hperm : Permutation (filter (fun r => (s_epoch_idx r =? e)%nat) (as_data a))
                                (rows_of (m, e))).
    { eapply perm_trans; [apply filter_perm; exact Hrows|].
      rewrite (filter_flat_map _ (fun y : marker * nat => (snd y =? e)%nat)).
      - rewrite Hsel. simpl. rewrite app_nil_r. apply Permutation_refl.
      - intros x _. unfold rows_of, epoch_rows. apply filter_map_const.
        intros s. reflexivity. }
    exists (label_of event_id (snd m)),
           (epoch_samples raw n_min (marker_inds raw tmin tmax m)).
    split; [exact Hlab|]. split; [exact Hil|].
    split; [apply epoch_samples_length;
            [exact Hil | apply Hwlen; apply (indexed_In _ _ Hmx)]|].
    split; [exact Hperm|].
    rewrite (Permutation_length Hperm). apply (Hrows_len _ Hmx).
Qed.

(** ** The kept markers (line 69) *)

Lemma np_getitem_middle {A : Type} (pre l : list A) (x : A) :
  np_getitem (pre ++ x :: l) (Z.of_nat (length pre)) = Ok x.
Proof.
  unfold np_getitem.
  assert (Hneg : (Z.of_nat (length pre) <? 0)%Z = false) by (apply Z.ltb_ge; lia).
  rewrite Hneg, length_app. simpl.
  assert (Hb : ((0 <=? Z.of_nat (length pre))
                && (Z.of_nat (length pre) <? Z.of_nat (length pre + S (length l))))%Z = true).
  { apply andb_true_iff; split; [apply Z.leb_le | apply Z.ltb_lt]; lia. }
  rewrite Hb, Nat2Z.id, nth_error_app2, Nat.sub_diag by lia. reflexivity.
Qed.

Lemma take_rows_seq (n : nat) : forall (pre l : list marker),
  (n <= length l)%nat ->
  take_rows (pre ++ l) (seq (length pre) n) = Ok (firstn n l).
Proof.
  unfold take_rows. induction n as [|n IH]; intros pre l Hn; simpl; [reflexivity|].
  destruct l as [|x l]; simpl in Hn; [lia|].
  rewrite np_getitem_middle. simpl.
  replace (pre ++ x :: l) with ((pre ++ [x]) ++ l) by (rewrite <- app_assoc; reflexivity).
  replace (S (length pre)) with (length (pre ++ [x])) by (rewrite length_app; simpl; lia).
  rewrite IH by lia. reflexivity.
Qed.

(** What line 69 keeps: [keep_idx] holds the epoch counter, not the
    position of the marker, so [events[keep_idx]] is the leading segment of
    the input as long as the number of accepted markers. *)
Lemma kept_events_are_leading_markers raw events event_id tmin tmax st :
  extract raw event_id tmin tmax events = Ok st ->
  take_rows events (keep_idx st)
  = Ok (firstn (length (accepted_markers raw (my_event_id_of event_id) tmin tmax events))
               events).
Proof.
  intros Hex. destruct (extract_accepted _ _ _ _ _ Hex) as [_ [_ [Hk _]]].
  rewrite Hk. apply (@take_rows_seq _ [] events). apply accepted_markers_length.
Qed.

(** C5 at a failing input.  Two samples, three markers of which the second
    has a code that is not admissible: the accepted markers are the first
    and the third, the [events] attribute holds the first and the second. *)
Theorem events_attribute_keeps_skipped_marker :
  exists ep,
    Epochs_init (Examples.plain 2) [(0, 1); (0, 2); (0, 1)]%Z (Scalar 1) (-2) 0 = Ok ep
    /\ accepted_markers (Examples.plain 2) [1%Z] (-2) 0 [(0, 1); (0, 2); (0, 1)]%Z
       = [(0, 1); (0, 1)]%Z
    /\ self_events ep = [(0, 1); (0, 2)]%Z.
Proof.
  eexists. split; [vm_compute; reflexivity|]. split; reflexivity.
Qed.

(** ** The [times] column (line 94) *)

(** C6 at failing inputs.  Four samples and one marker whose window holds
    two of them: the column assigned at line 94 is the tiling of the four
    absolute sample times, its length is not the table's, and the
    construction raises.  One sample and one marker whose window holds it:
    the construction succeeds and the [times] column holds the absolute
    time 0 of the sample, where the relative axis is [-1]. *)
Theorem times_column_tiles_absolute_times :
  Epochs_init (Examples.plain 4) [(1, 1)%Z] (Scalar 1) (-1) 1 = Raise ValueError
  /\ (exists st a,
         extract (Examples.plain 4) (Scalar 1) (-1) 1 [(1, 1)%Z] = Ok st
         /\ assemble (Examples.plain 4) (Scalar 1) st = Ok a
         /\ length (as_data a) = 2%nat
         /\ length (np_tile (raw_times (Examples.plain 4)) (as_n_epochs a)) = 4%nat
         /\ assign_times (Examples.plain 4) (as_n_epochs a) (as_data a) = Raise ValueError)
  /\ (exists ep,
         Epochs_init (Examples.plain 1) [(0, 1)%Z] (Scalar 1) (-1) 0 = Ok ep
         /\ map times (self_data ep) = [0%Q]
         /\ np_tile (self_times ep) 1 = [(-1)%Q]).
Proof.
  split; [vm_compute; reflexivity|]. split.
  - eexists. eexists. split; [vm_compute; reflexivity|].
    split; [vm_compute; reflexivity|]. repeat split; reflexivity.
  - eexists. split; [vm_compute; reflexivity|]. split; reflexivity.
Qed.

(** ** The overlay (lines 117-131) *)

(** C3 at failing inputs.  Three samples at times 0, 1, 2 and one epoch
    that holds them all.  With two saccades in the window, the second of
    which, [(1/2, 3/2)] with amplitude 20, strictly contains the sample at
    time 1: the row of that sample receives the values of the first
    saccade, [(-1, -1/2)] with amplitude 10 (line 129 reads label 0).
    With that saccade alone in the table, its index array is [[0]], which
    [np.any] takes for empty (line 123), and no row receives anything. *)
Theorem overlay_writes_first_event_values :
  (exists ep,
      Epochs_init (Examples.recording 3 (Some Examples.two_saccades)
                                      (Some Examples.no_events) (Some Examples.no_events))
                  [(0, 1)%Z] (Scalar 1) (-1) 2 = Ok ep
      /\ map (fun r => (row_time r, get_col "stime" r, get_col "etime" r, get_col "ampl" r))
             (self_data ep)
         = [(0, Null, Null, Null);
            (1, Num (-1), Num (-1 # 2), Num 10);
            (2, Null, Null, Null)]%Q)
  /\ (exists st,
         extract (Examples.recording 3 (Some Examples.two_saccades)
                                     (Some Examples.no_events) (Some Examples.no_events))
                 (Scalar 1) (-1) 2 [(0, 1)%Z] = Ok st
         /\ parsed_inds st = [[(1%Z, [[0; 1]%nat])]; [(1%Z, [[]])]; [(1%Z, [[]])]])
  /\ (exists ep,
         Epochs_init (Examples.recording 3 (Some Examples.one_saccade)
                                         (Some Examples.no_events) (Some Examples.no_events))
                     [(0, 1)%Z] (Scalar 1) (-1) 2 = Ok ep
         /\ map (fun r => (row_time r, get_col "stime" r, get_col "etime" r, get_col "ampl" r))
                (self_data ep)
            = [(0, Null, Null, Null); (1, Null, Null, Null); (2, Null, Null, Null)]%Q)
  /\ (exists st,
         extract (Examples.recording 3 (Some Examples.one_saccade)
                                     (Some Examples.no_events) (Some Examples.no_events))
                 (Scalar 1) (-1) 2 [(0, 1)%Z] = Ok st
         /\ parsed_inds st = [[(1%Z, [[0]%nat])]; [(1%Z, [[]])]; [(1%Z, [[]])]]).
Proof.
  split; [eexists; split; [vm_compute; reflexivity | reflexivity]|].
  split; [eexists; split; [vm_compute; reflexivity | reflexivity]|].
  split; [eexists; split; [vm_compute; reflexivity | reflexivity]|].
  eexists; split; [vm_compute; reflexivity | reflexivity].
Qed.

(** A kind whose recorded index arrays are all empty (or hold only index
    0) is passed over by the overlay, when every label of the index has
    its rows: the table is left as it is. *)
Lemma overlay_kind_nothing_recorded raw missing kind this_in parsed d :
  getattr raw kind = Some this_in ->
  (forall kv ind, In kv parsed -> In ind (snd kv) -> np_any ind = false) ->
  (forall ii, In ii (index_labels d missing) -> has_label d ii = true) ->
  overlay_kind raw missing (kind, parsed) d = Ok d.
Proof.
  intros Hg Hnone Hlab. unfold overlay_kind. simpl. rewrite Hg.
  induction parsed as [|kv parsed IH]; simpl; [reflexivity|].
  assert (Hcode : overlay_code this_in missing kv d = Ok d).
  { unfold overlay_code.
    assert (Hinds : forall ind, In ind (snd kv) -> np_any ind = false).
    { intros ind Hind. apply (Hnone kv); [left; reflexivity | exact Hind]. }
    revert Hlab. generalize (index_labels d missing). revert Hinds.
    generalize (snd kv).
    intros values. induction values as [|ind values IHv]; intros Hinds labels Hlab.
    - destruct labels; reflexivity.
    - destruct labels as [|l labels]; simpl; [reflexivity|].
      unfold overlay_epoch at 1. simpl.
      rewrite (Hlab l (or_introl eq_refl)).
      rewrite (Hinds ind (or_introl eq_refl)). simpl.
      apply IHv.
      + intros ind' Hind'. apply Hinds. right. exact Hind'.
      + intros ii Hii. apply Hlab. right. exact Hii. }
  rewrite Hcode. simpl. apply IH.
  intros kv' ind Hkv Hind. apply (Hnone kv'); [right; exact Hkv | exact Hind].
Qed.

Lemma get_col_all_null (c : string) (r : row) :
  (forall kv, In kv (cols r) -> snd kv = Null) -> get_col c r = Null.
Proof.
  intros H. unfold get_col.
  destruct (find (fun kv => String.eqb (fst kv) c) (cols r)) as [kv|] eqn:Hf;
    [|reflexivity].
  apply find_some in Hf. apply H. tauto.
Qed.

(** C9 at failing inputs.  A recording that has no blink table and does
    not list blinks among its event types: the marker loop runs, and the
    overlay raises AttributeError on [this_in.columns] (line 119).  A
    recording that lists blinks but has no such table raises AttributeError
    as well (line 60).  With the table present and empty the same
    construction succeeds and every attribute column stays null. *)
Theorem absent_table_raises_AttributeError :
  Epochs_init Examples.without_blinks [(0, 1)%Z] (Scalar 1) (-1) 0 = Raise AttributeError
  /\ (exists st, extract Examples.without_blinks (Scalar 1) (-1) 0 [(0, 1)%Z] = Ok st)
  /\ getattr Examples.without_blinks "_blinks" = None
  /\ Epochs_init (Examples.recording 1 (Some Examples.no_events) (Some Examples.no_events) None)
                 [(0, 1)%Z] (Scalar 1) (-1) 0 = Raise AttributeError
  /\ (exists ep,
         Epochs_init (Examples.plain 1) [(0, 1)%Z] (Scalar 1) (-1) 0 = Ok ep
         /\ forall r c, In r (self_data ep) -> get_col c r = Null).
Proof.
  split; [vm_compute; reflexivity|].
  split; [eexists; vm_compute; reflexivity|].
  split; [reflexivity|].
  split; [vm_compute; reflexivity|].
  eexists. split; [vm_compute; reflexivity|].
  intros r c [Hr|[]]. subst r. apply get_col_all_null.
  intros kv Hkv. simpl in Hkv.
  repeat (destruct Hkv as [Hkv|Hkv]; [subst kv; reflexivity|]).
  destruct Hkv.
Qed.

(** ** The table of a successful construction *)

Lemma foldM_invariant {A S : Type} (P : S -> Prop) (f : A -> S -> result S) (l : list A) :
  (forall x s s', f x s = Ok s' -> P s -> P s') ->
  forall s s', foldM f l s = Ok s' -> P s -> P s'.
Proof.
  intros Hf. induction l as [|x l IH]; intros s s' H Hs; simpl in H.
  - inversion H; subst. exact Hs.
  - apply bind_Ok in H. destruct H as [s1 [H1 H]].
    apply (IH s1 s' H). apply (Hf x s s1 H1 Hs).
Qed.

Lemma combine_fst_snd {A B : Type} (l : list A) : forall r : list B,
  length r = length l -> map fst (combine l r) = l /\ map snd (combine l r) = r.
Proof.
  induction l as [|a l IH]; intros [|b r] H; simpl in *; try discriminate.
  - auto.
  - destruct (IH r) as [H1 H2]; [lia|]. rewrite H1, H2. auto.
Qed.

Lemma index_table_Ok raw n data d missing :
  index_table raw n data = Ok (d, missing) ->
  map base d = data
  /\ (data <> [] -> missing = [] /\ map times d = np_tile (raw_times raw) n)
  /\ (data = [] -> missing = np_tile (raw_times raw) n).
Proof.
  unfold index_table, assign_times, set_index. intros H.
  destruct data as [|x data].
  - simpl in H. destruct (has_duplicate_times _); simpl in H; [discriminate|].
    inversion H; subst. split; [reflexivity|].
    split; [intros Hne; contradiction Hne; reflexivity | reflexivity].
  - destruct (length (np_tile (raw_times raw) n) =? length (x :: data))%nat eqn:Hlen;
      simpl in H; [|discriminate].
    apply Nat.eqb_eq in Hlen.
    match type of H with
    | bind (if ?c then _ else _) _ = _ => destruct c; simpl in H; [discriminate|]
    end.
    inversion H; subst d missing. rewrite !map_map. simpl.
    destruct (combine_fst_snd (x :: data) (np_tile (raw_times raw) n) Hlen) as [H1 H2].
    split; [exact H1|]. split; [|discriminate].
    intros _. split; [reflexivity | exact H2].
Qed.



(** ** When the assembly succeeds *)

Lemma np_getitem_in_range {A : Type} (a : list A) (i : Z) :
  (- Z.of_nat (length a) <= i < Z.of_nat (length a))%Z ->
  exists x, np_getitem a i = Ok x.
Proof.
  intros Hi. unfold np_getitem.
  set (n := Z.of_nat (length a)) in *.
  set (j := if (i <? 0)%Z then (i + n)%Z else i).
  assert (Hj : (0 <= j < n)%Z).
  { unfold j. destruct (i <? 0)%Z eqn:Hneg;
      [apply Z.ltb_lt in Hneg | apply Z.ltb_ge in Hneg]; lia. }
  assert (Hb : ((0 <=? j) && (j <? n))%Z = true).
  { apply andb_true_iff; split; [apply Z.leb_le | apply Z.ltb_lt]; lia. }
  rewrite Hb.
  destruct (nth_error a (Z.to_nat j)) as [x|] eqn:Hx; [exists x; reflexivity|].
  apply nth_error_None in Hx. unfold n in Hj. lia.
Qed.

Lemma mapM_total {A B : Type} (f : A -> result B) (l : list A) :
  (forall x, In x l -> exists y, f x = Ok y) -> exists ys, mapM f l = Ok ys.
Proof.
  induction l as [|x l IH]; intros H; simpl; [exists []; reflexivity|].
  destruct (H x (or_introl eq_refl)) as [y Hy].
  destruct IH as [ys Hys]; [intros z Hz; apply H; right; exact Hz|].
  exists (y :: ys). rewrite Hy, Hys. reflexivity.
Qed.

Lemma arange_In lo hi i : In i (arange lo hi) <-> (lo <= i < hi)%Z.
Proof.
  unfold arange. rewrite in_map_iff. split.
  - intros [k [Hk Hin]]. apply in_seq in Hin. lia.
  - intros H. exists (Z.to_nat (i - lo)). split; [lia|]. apply in_seq. lia.
Qed.

Lemma concat_length_const {A : Type} (n : nat) (ls : list (list A)) :
  (forall l, In l ls -> length l = n) -> length (concat ls) = (length ls * n)%nat.
Proof.
  induction ls as [|l ls IH]; intros H; simpl; [reflexivity|].
  rewrite length_app, (H l (or_introl eq_refl)), IH by (intros l' Hl'; apply H; right; exact Hl').
  reflexivity.
Qed.

Lemma In_firstn {A : Type} (n : nat) (l : list A) (x : A) :
  In x (firstn n l) -> In x l.
Proof.
  intros H. rewrite <- (firstn_skipn n l). apply in_or_app. left. exact H.
Qed.

Lemma filter_all {A : Type} (p : A -> bool) (l : list A) :
  (forall x, In x l -> p x = true) -> filter p l = l.
Proof.
  induction l as [|x l IH]; intros H; simpl; [reflexivity|].
  rewrite (H x (or_introl eq_refl)), IH by (intros y Hy; apply H; right; exact Hy).
  reflexivity.
Qed.

(** With a scalar [event_id], at least one accepted marker and no window
    that starts more than the length of the recording before its first
    sample (so that every kept index addresses a sample), lines 70-92
    return a table. *)
Lemma assemble_succeeds_scalar raw events code tmin tmax st :
  extract raw (Scalar code) tmin tmax events = Ok st ->
  accepted_markers raw [code] tmin tmax events <> [] ->
  (forall m w, In m (accepted_markers raw [code] tmin tmax events) ->
               window raw tmin tmax (fst m) = Ok w ->
               (- Z.of_nat (length (_samples raw)) <= time_as_index raw (fst w))%Z) ->
  exists a, assemble raw (Scalar code) st = Ok a.
Proof.
  intros Hex Hne Hlow.
  set (acc := accepted_markers raw [code] tmin tmax events) in *.
  destruct (extract_accepted _ _ _ _ _ Hex) as [_ [_ [_ Hms]]].
  simpl in Hms. fold acc in Hms.
  pose proof Hex as Hstruct. apply sample_inds_structure in Hstruct.
  simpl in Hstruct. fold acc in Hstruct.
  destruct (np_min (min_samples st)) as [n|e] eqn:Hmin.
  2:{ rewrite Hms in Hmin. destruct acc; [congruence | discriminate]. }
  pose proof Hmin as Hspec. apply np_min_spec in Hspec. destruct Hspec as [_ Hle].
  assert (Hcode : forall x, In x (indexed acc) -> (code_of x =? code)%Z = true).
  { intros x Hx. apply indexed_In in Hx. apply accepted_markers_In in Hx.
    destruct Hx as [_ [Hadm _]]. apply admissible_In in Hadm.
    destruct Hadm as [Hc|[]]. apply Z.eqb_eq. unfold code_of. congruence. }
  rewrite (filter_all _ _ Hcode) in Hstruct.
  set (values := map (entry raw tmin tmax) (indexed acc)) in *.
  assert (Hvalues : values <> []).
  { unfold values. intros Hnil. apply map_eq_nil in Hnil.
    apply (f_equal (@length _)) in Hnil. rewrite indexed_length in Hnil.
    destruct acc; [congruence | discriminate]. }
  assert (Hn : forall e, In e values -> (n <= length (fst e))%nat).
  { intros e He. unfold values in He. apply in_map_iff in He.
    destruct He as [x [Hx Hin]]. subst e. simpl. apply Hle. rewrite Hms.
    apply in_map_iff. exists (fst x). split; [reflexivity | apply indexed_In; exact Hin]. }
  assert (Hrange : forall e i, In e values -> In i (fst e) ->
             (- Z.of_nat (length (_samples raw)) <= i < Z.of_nat (length (_samples raw)))%Z).
  { intros e i He Hi. unfold values in He. apply in_map_iff in He.
    destruct He as [x [Hx Hin]]. subst e. simpl in Hi.
    apply indexed_In in Hin. pose proof Hin as Hacc.
    apply accepted_markers_In in Hin. destruct Hin as [_ [_ [w [Hw Hob]]]].
    unfold marker_inds in Hi. rewrite Hw in Hi. apply arange_In in Hi.
    specialize (Hlow _ _ Hacc Hw).
    unfold out_of_bounds, window_inds in Hob. simpl in Hob. apply Z.leb_gt in Hob. lia. }
  destruct (mapM_total (np_getitem (_samples raw))
                       (concat (map (fun v => firstn n (fst v)) values))) as [df Hdf].
  { intros i Hi. apply in_concat in Hi. destruct Hi as [l [Hl Hil]].
    apply in_map_iff in Hl. destruct Hl as [e [He Hin]]. subst l.
    apply np_getitem_in_range. apply (Hrange e); [exact Hin|].
    apply (In_firstn _ _ _ Hil). }
  assert (Hlen_df : length df = (length values * n)%nat).
  { pose proof Hdf as Hl0. apply mapM_length in Hl0. rewrite Hl0.
    rewrite (@concat_length_const _ n), length_map; [reflexivity|].
    intros l Hl. apply in_map_iff in Hl. destruct Hl as [e [He Hin]]. subst l.
    apply firstn_length_le. apply Hn. exact Hin. }
  assert (Hlen_count : length (concat (map (fun v => repeat (snd v) n) values))
                       = (length values * n)%nat).
  { rewrite (@concat_length_const _ n), length_map; [reflexivity|].
    intros l Hl. apply in_map_iff in Hl. destruct Hl as [e [He _]]. subst l.
    apply repeat_length. }
  assert (Hgroup : exists g, group_rows raw (Scalar code) n code values = Ok g
                             /\ snd g = map (fun v => length (firstn n (fst v))) values).
  { unfold group_rows. destruct values as [|v0 vs] eqn:Hv; [congruence|]. rewrite <- Hv in *.
    unfold iloc. rewrite Hdf. simpl. rewrite Hlen_count, Hlen_df, Nat.eqb_refl.
    eexists. split; [reflexivity|]. simpl. rewrite map_map. reflexivity. }
  destruct Hgroup as [g [Hg Hsnd]].
  unfold assemble. rewrite Hmin. simpl. rewrite Hstruct. simpl. rewrite Hg. simpl.
  assert (Hall : all_min_samples (snd g ++ []) n = true).
  { rewrite app_nil_r, Hsnd. destruct values as [|v0 vs] eqn:Hv; [congruence|].
    rewrite <- Hv in *. unfold all_min_samples.
    assert (Hf : forallb (Nat.eqb n) (map (fun v => length (firstn n (fst v))) values) = true).
    { apply forallb_forall. intros k Hk. apply in_map_iff in Hk.
      destruct Hk as [e [He Hin]]. subst k. apply Nat.eqb_eq. symmetry.
      apply firstn_length_le. apply Hn. exact Hin. }
    rewrite Hv in Hf |- *. simpl in Hf |- *. exact Hf. }
  rewrite Hall. eexists. reflexivity.
Qed.

(** ** Markers whose code is not admissible *)

Lemma loop_filter_admissible raw ids tmin tmax events : forall st,
  loop raw ids tmin tmax (filter (fun m => admissible ids (snd m)) events) st
  = loop raw ids tmin tmax events st.
Proof.
  induction events as [|[event this_id] rest IH]; intros st; simpl; [reflexivity|].
  destruct (admissible ids this_id) eqn:Ha; simpl; [|apply IH].
  rewrite Ha. simpl.
  destruct (window raw tmin tmax event) as [w|e]; simpl; [|reflexivity].
  destruct (out_of_bounds raw (time_as_index raw (fst w), time_as_index raw (snd w)));
    [reflexivity|].
  destruct (scan_kinds raw this_id (fst w) (snd w) (event_types raw) (parsed_inds st));
    simpl; [apply IH | reflexivity].
Qed.

(** X1.  The marker loop passes over every marker whose code is not
    admissible (line 47-48): the loop state and the accepted markers are
    those of the input with these markers taken out, whatever their sample
    index is. *)
Theorem inadmissible_markers_do_not_matter
        (raw : Raw) (event_id : event_id_spec) (tmin tmax : Q) (events : list marker) :
  extract raw event_id tmin tmax
          (filter (fun m => admissible (my_event_id_of event_id) (snd m)) events)
  = extract raw event_id tmin tmax events
  /\ accepted_markers raw (my_event_id_of event_id) tmin tmax
                      (filter (fun m => admissible (my_event_id_of event_id) (snd m)) events)
     = accepted_markers raw (my_event_id_of event_id) tmin tmax events.
Proof.
  split; [apply loop_filter_admissible|].
  induction events as [|[event this_id] rest IH]; simpl; [reflexivity|].
  destruct (admissible (my_event_id_of event_id) this_id) eqn:Ha; simpl; [|exact IH].
  rewrite Ha. simpl. rewrite IH. reflexivity.
Qed.

(** ** The [events] attribute *)

Lemma accepted_prefix_all_admissible raw ids tmin tmax events :
  (forall m, In m events -> admissible ids (snd m) = true) ->
  firstn (length (accepted_markers raw ids tmin tmax events)) events
  = accepted_markers raw ids tmin tmax events.
Proof.
  induction events as [|[event this_id] rest IH]; intros Hall; simpl; [reflexivity|].
  pose proof (Hall (event, this_id) (or_introl eq_refl)) as Ha. simpl in Ha.
  rewrite Ha. simpl.
  destruct (window raw tmin tmax event) as [w|e]; [|reflexivity].
  destruct (out_of_bounds raw (window_inds raw w)); [reflexivity|].
  simpl. f_equal. apply IH. intros m Hm. apply Hall. right. exact Hm.
Qed.

Lemma kept_events_of_construction raw events event_id tmin tmax ep :
  Epochs_init raw events event_id tmin tmax = Ok ep ->
  self_events ep
  = firstn (length (accepted_markers raw (my_event_id_of event_id) tmin tmax events))
           events.
Proof.
  intros H. apply Epochs_init_Ok in H.
  destruct H as [st [kept [a [d0 [missing [d [H1 [H2 [_ [_ [_ Hep]]]]]]]]]]].
  subst ep. simpl.
  destruct (extract_accepted _ _ _ _ _ H1) as [_ [_ [Hk _]]].
  rewrite Hk in H2.
  rewrite (@take_rows_seq _ [] events) in H2 by apply accepted_markers_length.
  inversion H2. reflexivity.
Qed.

(** X2.  When every marker of the input has an admissible code, the
    [events] attribute of a returned collection is exactly the list of
    the accepted markers, in order (lines 43-69). *)
Theorem events_attribute_of_admissible_input
        (raw : Raw) (events : list marker) (event_id : event_id_spec) (tmin tmax : Q)
        (ep : Epochs)
        (Hall : forall m, In m events -> admissible (my_event_id_of event_id) (snd m) = true)
        (Hok : Epochs_init raw events event_id tmin tmax = Ok ep) :
  self_events ep = accepted_markers raw (my_event_id_of event_id) tmin tmax events.
Proof.
  rewrite (kept_events_of_construction _ _ _ _ _ Hok).
  apply accepted_prefix_all_admissible. exact Hall.
Qed.

Lemma events_attribute_of_admissible_input_witness :
  exists ep,
    Epochs_init (Examples.plain 2) [(0, 1); (0, 1)]%Z (Scalar 1) (-2) 0 = Ok ep
    /\ self_events ep = [(0, 1); (0, 1)]%Z.
Proof.
  destruct (Epochs_init (Examples.plain 2) [(0, 1); (0, 1)]%Z (Scalar 1) (-2) 0)
    as [ep|e] eqn:Hep; [|vm_compute in Hep; discriminate].
  exists ep. split; [reflexivity|].
  apply (@events_attribute_of_admissible_input
           (Examples.plain 2) [(0, 1); (0, 1)]%Z (Scalar 1) (-2) 0 ep).
  - intros m [Hm|[Hm|[]]]; subst m; reflexivity.
  - exact Hep.
Defined.

(** X3.  In general the [events] attribute of a returned collection is
    the leading segment of the input markers that is as long as the list of
    accepted markers: [keep_idx] collects the epoch counter (lines 44, 66,
    67, 69).  Its length, which [__repr__] reports, is the number of
    accepted markers. *)
Theorem events_attribute_is_leading_segment
        (raw : Raw) (events : list marker) (event_id : event_id_spec) (tmin tmax : Q)
        (ep : Epochs)
        (Hok : Epochs_init raw events event_id tmin tmax = Ok ep) :
  let n := length (accepted_markers raw (my_event_id_of event_id) tmin tmax events) in
  self_events ep = firstn n events /\ length (self_events ep) = n.
Proof.
  intros n. rewrite (kept_events_of_construction _ _ _ _ _ Hok). fold n.
  split; [reflexivity|]. apply firstn_length_le. apply accepted_markers_length.
Qed.

Lemma events_attribute_is_leading_segment_witness :
  exists ep,
    Epochs_init (Examples.plain 2) [(0, 2); (0, 1); (0, 1)]%Z (Scalar 1) (-2) 0 = Ok ep
    /\ self_events ep = firstn 2 [(0, 2); (0, 1); (0, 1)]%Z
    /\ length (self_events ep) = 2%nat.
Proof.
  destruct (Epochs_init (Examples.plain 2) [(0, 2); (0, 1); (0, 1)]%Z (Scalar 1) (-2) 0)
    as [ep|e] eqn:Hep; [|vm_compute in Hep; discriminate].
  exists ep. split; [reflexivity|].
  apply (@events_attribute_is_leading_segment
           (Examples.plain 2) [(0, 2); (0, 1); (0, 1)]%Z (Scalar 1) (-2) 0 ep Hep).
Defined.

(** ** The index ranges of the accepted markers *)

Lemma sample_inds_entry raw event_id tmin tmax events st c vals e :
  extract raw event_id tmin tmax events = Ok st ->
  In (c, vals) (sample_inds st) ->
  In e vals ->
  exists x,
    In x (indexed (accepted_markers raw (my_event_id_of event_id) tmin tmax events))
    /\ code_of x = c
    /\ e = entry raw tmin tmax x.
Proof.
  intros Hex Hin He. apply sample_inds_structure in Hex. rewrite Hex in Hin.
  apply in_map_iff in Hin. destruct Hin as [c' [Hc _]]. inversion Hc; subst c' vals.
  apply in_map_iff in He. destruct He as [x [Hx Hxin]].
  apply filter_In in Hxin. destruct Hxin as [Hxin Hcode]. apply Z.eqb_eq in Hcode.
  exists x. auto.
Qed.

(** X4.  Every sample index the marker loop keeps for an epoch is below
    the number of samples of the recording (lines 51-57): a window that
    reaches the end of the recording is never kept.  (An index may be
    negative; it then counts from the end.) *)
Theorem kept_indices_are_below_the_end
        (raw : Raw) (events : list marker) (event_id : event_id_spec) (tmin tmax : Q)
        (st : loop_state) (c : Z) (vals : list (list Z * nat)) (inds : list Z) (k : nat)
        (i : Z)
        (Hex : extract raw event_id tmin tmax events = Ok st)
        (Hcode : In (c, vals) (sample_inds st))
        (Hentry : In (inds, k) vals)
        (Hi : In i inds) :
  (i < Z.of_nat (length (_samples raw)))%Z.
Proof.
  destruct (sample_inds_entry _ _ _ _ _ _ _ _ Hex Hcode Hentry) as [x [Hx [_ He]]].
  apply indexed_In in Hx. apply accepted_markers_In in Hx.
  destruct Hx as [_ [_ [w [Hw Hob]]]].
  unfold entry in He. inversion He; subst inds k.
  unfold marker_inds in Hi. rewrite Hw in Hi. apply arange_In in Hi.
  unfold out_of_bounds, window_inds in Hob. simpl in Hob. apply Z.leb_gt in Hob. lia.
Qed.

Lemma kept_indices_are_below_the_end_witness :
  exists st,
    extract (Examples.plain 4) (Scalar 1) (-1) 1 [(1, 1); (2, 1); (3, 1)]%Z = Ok st
    /\ sample_inds st = [(1, [([0; 1], 0%nat); ([1; 2], 1%nat)])]%Z
    /\ (2 < Z.of_nat (length (_samples (Examples.plain 4))))%Z.
Proof.
  destruct (extract (Examples.plain 4) (Scalar 1) (-1) 1 [(1, 1); (2, 1); (3, 1)]%Z)
    as [st|e] eqn:Hex; [|vm_compute in Hex; discriminate].
  assert (Hs : sample_inds st = [(1, [([0; 1], 0%nat); ([1; 2], 1%nat)])]%Z).
  { vm_compute in Hex. inversion Hex. reflexivity. }
  exists st. split; [reflexivity|]. split; [exact Hs|].
  apply (@kept_indices_are_below_the_end
           (Examples.plain 4) [(1, 1); (2, 1); (3, 1)]%Z (Scalar 1) (-1) 1 st
           1%Z [([0; 1], 0%nat); ([1; 2], 1%nat)]%Z [1; 2]%Z 1%nat 2%Z Hex).
  - rewrite Hs. left. reflexivity.
  - right. left. reflexivity.
  - right. left. reflexivity.
Defined.

Lemma combine_seq_nth {A : Type} (l : list A) : forall s x,
  In x (combine l (seq s (length l))) ->
  (s <= snd x)%nat /\ nth_error l (snd x - s) = Some (fst x).
Proof.
  induction l as [|a l IH]; intros s x H; simpl in H; [contradiction|].
  destruct H as [H|H].
  - subst x. simpl. rewrite Nat.sub_diag. split; [lia | reflexivity].
  - destruct (IH (S s) x H) as [Hle Hn]. split; [lia|].
    replace (snd x - s)%nat with (S (snd x - S s)) by lia. exact Hn.
Qed.

Lemma indexed_nth acc x :
  In x (indexed acc) -> nth_error acc (snd x) = Some (fst x).
Proof.
  unfold indexed. intros H. apply combine_seq_nth in H. destruct H as [_ H].
  rewrite Nat.sub_0_r in H. exact H.
Qed.

Lemma filter_indexed_sorted (p : marker * nat -> bool) (l : list marker) : forall s,
  StronglySorted lt (map snd (filter p (combine l (seq s (length l)))))
  /\ Forall (fun k => (s <= k)%nat) (map snd (filter p (combine l (seq s (length l))))).
Proof.
  induction l as [|a l IH]; intros s; simpl; [split; constructor|].
  destruct (IH (S s)) as [Hs Hf].
  assert (Hf' : Forall (fun k => (s <= k)%nat)
                       (map snd (filter p (combine l (seq (S s) (length l)))))).
  { eapply Forall_impl; [|exact Hf]. simpl. intros k Hk. lia. }
  destruct (p (a, s)); simpl.
  - split.
    + constructor; [exact Hs|]. eapply Forall_impl; [|exact Hf]. simpl. intros k Hk. lia.
    + constructor; [lia | exact Hf'].
  - split; assumption.
Qed.

(** X5.  Under each admissible code the loop keeps one entry per accepted
    marker of that code, in input order; the epoch index of an entry is the
    position of its marker among all accepted markers, so within a code a
    later marker has a strictly greater epoch index (lines 44, 57, 67). *)
Theorem epochs_of_a_code_follow_input_order
        (raw : Raw) (events : list marker) (event_id : event_id_spec) (tmin tmax : Q)
        (st : loop_state) (c : Z) (vals : list (list Z * nat))
        (Hex : extract raw event_id tmin tmax events = Ok st)
        (Hcode : In (c, vals) (sample_inds st)) :
  let acc := accepted_markers raw (my_event_id_of event_id) tmin tmax events in
  map fst vals = map (marker_inds raw tmin tmax) (with_code c acc)
  /\ StronglySorted lt (map snd vals)
  /\ forall inds k, In (inds, k) vals ->
       exists m, nth_error acc k = Some m /\ snd m = c
                 /\ inds = marker_inds raw tmin tmax m.
Proof.
  intros acc. pose proof Hex as Hs. apply sample_inds_structure in Hs. fold acc in Hs.
  pose proof Hcode as Hin. rewrite Hs in Hin.
  apply in_map_iff in Hin. destruct Hin as [c' [Hc _]]. inversion Hc as [[Hc' Hvals]].
  subst c'. split; [|split].
  - rewrite map_map. simpl. unfold with_code, indexed.
    generalize 0%nat. generalize acc. clear.
    intros l. induction l as [|m l IH]; intros s; simpl; [reflexivity|].
    unfold code_of at 1. simpl. destruct (snd m =? c)%Z; simpl; [f_equal|]; apply IH.
  - rewrite map_map. simpl.
    apply (filter_indexed_sorted (fun x => (code_of x =? c)%Z) acc 0).
  - intros inds k Hk. rewrite Hvals in Hk.
    destruct (sample_inds_entry _ _ _ _ _ _ _ _ Hex Hcode Hk) as [x [Hx [Hcx He]]].
    fold acc in Hx. unfold entry in He. inversion He; subst inds k.
    exists (fst x). split; [apply indexed_nth; exact Hx|]. split; [exact Hcx | reflexivity].
Qed.

Lemma epochs_of_a_code_follow_input_order_witness :
  exists st,
    extract (Examples.plain 4) (Labeled [("a", 1); ("b", 2)]%string%Z) (-1) 1
            [(1, 1); (1, 2); (2, 1)]%Z = Ok st
    /\ sample_inds st = [(1, [([0; 1], 0%nat); ([1; 2], 2%nat)]); (2, [([0; 1], 1%nat)])]%Z
    /\ StronglySorted lt [0; 2]%nat.
Proof.
  destruct (extract (Examples.plain 4) (Labeled [("a", 1); ("b", 2)]%string%Z) (-1) 1
                    [(1, 1); (1, 2); (2, 1)]%Z) as [st|e] eqn:Hex;
    [|vm_compute in Hex; discriminate].
  assert (Hs : sample_inds st
               = [(1, [([0; 1], 0%nat); ([1; 2], 2%nat)]); (2, [([0; 1], 1%nat)])]%Z).
  { vm_compute in Hex. inversion Hex. reflexivity. }
  exists st. split; [reflexivity|]. split; [exact Hs|].
  assert (Hin : In (1%Z, [([0; 1], 0%nat); ([1; 2], 2%nat)]%Z) (sample_inds st))
    by (rewrite Hs; left; reflexivity).
  destruct (@epochs_of_a_code_follow_input_order
              (Examples.plain 4) [(1, 1); (1, 2); (2, 1)]%Z
              (Labeled [("a", 1); ("b", 2)]%string%Z) (-1) 1 st 1%Z
              [([0; 1], 0%nat); ([1; 2], 2%nat)]%Z Hex Hin) as [_ [Hsorted _]].
  exact Hsorted.
Defined.

(** ** Failures of the marker loop *)

Lemma np_getitem_outside {A : Type} (a : list A) (i : Z) :
  (i < - Z.of_nat (length a) \/ Z.of_nat (length a) <= i)%Z ->
  np_getitem a i = Raise IndexError.
Proof.
  intros Hi. unfold np_getitem.
  set (n := Z.of_nat (length a)) in *.
  assert (Hn : (0 <= n)%Z) by (unfold n; lia).
  destruct (i <? 0)%Z eqn:Hneg; [apply Z.ltb_lt in Hneg | apply Z.ltb_ge in Hneg].
  - assert (Hb : ((0 <=? i + n) && (i + n <? n))%Z = false).
    { apply andb_false_iff.
      destruct Hi; [left; apply Z.leb_gt; lia | right; apply Z.ltb_ge; lia]. }
    rewrite Hb. reflexivity.
  - assert (Hb : ((0 <=? i) && (i <? n))%Z = false).
    { apply andb_false_iff. right. apply Z.ltb_ge. lia. }
    rewrite Hb. reflexivity.
Qed.

Lemma loop_skips_inadmissible raw ids tmin tmax pre rest st :
  (forall m, In m pre -> admissible ids (snd m) = false) ->
  loop raw ids tmin tmax (pre ++ rest) st = loop raw ids tmin tmax rest st.
Proof.
  induction pre as [|[event this_id] pre IH]; intros Hpre; simpl; [reflexivity|].
  pose proof (Hpre (event, this_id) (or_introl eq_refl)) as Ha. simpl in Ha.
  rewrite Ha. simpl. apply IH. intros m Hm. apply Hpre. right. exact Hm.
Qed.

(** X6.  When the first marker with an admissible code has a sample index
    that does not address a sample of the recording (below [-N] or at
    least [N], for [N] samples), [times[event]] fails and the construction
    raises IndexError (line 49); markers before it whose code is not
    admissible are not looked up. *)
Theorem marker_outside_recording_raises_IndexError
        (raw : Raw) (event_id : event_id_spec) (tmin tmax : Q)
        (pre post : list marker) (event this_id : Z)
        (Hpre : forall m, In m pre -> admissible (my_event_id_of event_id) (snd m) = false)
        (Hadm : admissible (my_event_id_of event_id) this_id = true)
        (Hout : (event < - Z.of_nat (length (_samples raw))
                 \/ Z.of_nat (length (_samples raw)) <= event)%Z) :
  Epochs_init raw (pre ++ (event, this_id) :: post) event_id tmin tmax = Raise IndexError.
Proof.
  unfold Epochs_init, extract.
  rewrite loop_skips_inadmissible by exact Hpre. simpl. rewrite Hadm. simpl.
  unfold window. rewrite np_getitem_outside; [reflexivity|].
  unfold raw_times. rewrite length_map. exact Hout.
Qed.

Lemma marker_outside_recording_raises_IndexError_witness :
  Epochs_init (Examples.plain 4) ([(9, 2)] ++ (4, 1) :: [(1, 1)])%Z (Scalar 1) (-1) 1
  = Raise IndexError.
Proof.
  apply (@marker_outside_recording_raises_IndexError
           (Examples.plain 4) (Scalar 1) (-1) 1 [(9, 2)%Z] [(1, 1)%Z] 4%Z 1%Z).
  - intros m [Hm|[]]. subst m. reflexivity.
  - reflexivity.
  - right. simpl. lia.
Defined.

Lemma scan_kinds_missing_table raw etype :
  In etype (firstn 3 (event_types raw)) ->
  getattr raw etype = None ->
  forall this_id a b parsed,
    length parsed = 3%nat ->
    raises (scan_kinds raw this_id a b (event_types raw) parsed).
Proof.
  intros Hin Hg this_id a b parsed Hlen.
  destruct (scan_kinds raw this_id a b (event_types raw) parsed) as [ps|e] eqn:Hs;
    [|exists e; reflexivity].
  exfalso. apply In_nth_error in Hin. destruct Hin as [k Hk].
  rewrite nth_error_firstn in Hk.
  destruct (k <? 3)%nat eqn:Hk3; [|discriminate]. apply Nat.ltb_lt in Hk3.
  destruct (scan_kinds_checked _ _ _ _ _ _ Hs Hk) as [df [Hg' _]]; [lia|].
  congruence.
Qed.

(** X7.  When one of the first three names of [raw.info['event_types']]
    is not an attribute of the recording, the construction never returns a
    collection: the first accepted marker makes [getattr(raw, etype)] fail
    (line 60), and without an accepted marker line 70 fails. *)
Theorem missing_event_table_aborts_construction
        (raw : Raw) (events : list marker) (event_id : event_id_spec) (tmin tmax : Q)
        (etype : string)
        (Hkind : In etype (firstn 3 (event_types raw)))
        (Hmissing : getattr raw etype = None) :
  raises (Epochs_init raw events event_id tmin tmax).
Proof.
  destruct (extract raw event_id tmin tmax events) as [st|e] eqn:Hex.
  - assert (Hst : st = init_state (my_event_id_of event_id)).
    { unfold extract in Hex. eapply loop_never_accepts; [|exact Hex].
      intros this_id a b. eapply scan_kinds_missing_table; eauto. }
    exists ValueError. unfold Epochs_init. rewrite Hex. subst st. reflexivity.
  - exists e. unfold Epochs_init. rewrite Hex. reflexivity.
Qed.

Lemma missing_event_table_aborts_construction_witness :
  raises (Epochs_init
            (Examples.recording 3 (Some Examples.no_events) None (Some Examples.no_events))
            [(1, 1)%Z] (Scalar 1) (-1) 1).
Proof.
  apply (@missing_event_table_aborts_construction
           (Examples.recording 3 (Some Examples.no_events) None (Some Examples.no_events))
           [(1, 1)%Z] (Scalar 1) (-1) 1 "fixations"%string).
  - simpl. right. left. reflexivity.
  - reflexivity.
Defined.

(** ** A code without an accepted marker *)

Lemma assemble_groups_empty_entry raw event_id n d c :
  In (c, []) d -> raises (assemble_groups raw event_id n d).
Proof.
  induction d as [|[c' values] d IH]; intros Hin; [destruct Hin|].
  simpl. destruct Hin as [Hin|Hin].
  - inversion Hin; subst. simpl. exists ValueError. reflexivity.
  - destruct (group_rows raw event_id n c' values) as [g|e]; simpl;
      [|exists e; reflexivity].
    destruct (IH Hin) as [e He]. rewrite He. simpl. exists e. reflexivity.
Qed.

(** X8.  Every admissible code needs an accepted marker: when some code of
    [event_id] is the code of no accepted marker, its list in
    [sample_inds] is empty, the unpacking of line 76 fails and the
    construction never returns a collection, even though markers of other
    codes were accepted. *)
Theorem code_without_marker_aborts_construction
        (raw : Raw) (events : list marker) (event_id : event_id_spec) (tmin tmax : Q)
        (c : Z)
        (Hcode : In c (my_event_id_of event_id))
        (Hnone : with_code c (accepted_markers raw (my_event_id_of event_id)
                                               tmin tmax events) = []) :
  raises (Epochs_init raw events event_id tmin tmax).
Proof.
  unfold Epochs_init.
  destruct (extract raw event_id tmin tmax events) as [st|e] eqn:Hex; simpl;
    [|exists e; reflexivity].
  destruct (take_rows events (keep_idx st)) as [kept|e]; simpl; [|exists e; reflexivity].
  assert (Has : raises (assemble raw event_id st)).
  { unfold assemble.
    destruct (np_min (min_samples st)) as [n|e]; simpl; [|exists e; reflexivity].
    assert (Hin : In (c, []) (sample_inds st)).
    { rewrite (sample_inds_structure _ _ _ _ _ Hex). apply in_map_iff. exists c.
      split; [|apply nodup_In; exact Hcode]. f_equal.
      set (acc := accepted_markers raw (my_event_id_of event_id) tmin tmax events) in *.
      assert (Hf : filter (fun x => (code_of x =? c)%Z) (indexed acc) = []).
      { destruct (filter (fun x => (code_of x =? c)%Z) (indexed acc)) as [|x l] eqn:Hf;
          [reflexivity|].
        assert (Hx : In x (filter (fun x => (code_of x =? c)%Z) (indexed acc)))
          by (rewrite Hf; left; reflexivity).
        apply filter_In in Hx. destruct Hx as [Hx Hc].
        apply indexed_In in Hx.
        assert (Hw : In (fst x) (with_code c acc))
          by (apply filter_In; split; [exact Hx | exact Hc]).
        rewrite Hnone in Hw. destruct Hw. }
      rewrite Hf. reflexivity. }
    destruct (assemble_groups_empty_entry raw event_id n _ _ Hin) as [e He].
    rewrite He. simpl. exists e. reflexivity. }
  destruct Has as [e He]. rewrite He. simpl. exists e. reflexivity.
Qed.

Lemma code_without_marker_aborts_construction_witness :
  raises (Epochs_init (Examples.plain 4) [(1, 1); (2, 1)]%Z
                      (Labeled [("a", 1); ("b", 2)]%string%Z) (-1) 1)
  /\ accepted_markers (Examples.plain 4) [1; 2]%Z (-1) 1 [(1, 1); (2, 1)]%Z
     = [(1, 1); (2, 1)]%Z.
Proof.
  split; [|reflexivity].
  apply (@code_without_marker_aborts_construction
           (Examples.plain 4) [(1, 1); (2, 1)]%Z
           (Labeled [("a", 1); ("b", 2)]%string%Z) (-1) 1 2%Z).
  - simpl. right. left. reflexivity.
  - reflexivity.
Defined.

(** ** The length of the table and of the recording *)

Lemma group_rows_length raw event_id n c values g :
  group_rows raw event_id n c values = Ok g -> length (fst g) = list_sum (snd g).
Proof.
  unfold group_rows. destruct values as [|v0 vs]; [discriminate|]. intros H.
  apply bind_Ok in H. destruct H as [df [Hdf H]].
  apply bind_Ok in H. destruct H as [lab [_ H]].
  match type of H with
  | (if (?x =? ?y)%nat then _ else _) = _ =>
      destruct (x =? y)%nat eqn:Hlen; [|discriminate];
      apply Nat.eqb_eq in Hlen; inversion H; subst g; cbn [fst snd]
  end.
  transitivity (length df).
  - rewrite length_map, length_combine. apply Nat.min_l.
    apply Nat.eq_le_incl. symmetry. exact Hlen.
  - apply mapM_length in Hdf. rewrite Hdf. apply length_concat.
Qed.

Lemma assemble_groups_length raw event_id n d : forall g,
  assemble_groups raw event_id n d = Ok g -> length (fst g) = list_sum (snd g).
Proof.
  induction d as [|[c values] d IH]; intros g H; simpl in H.
  - inversion H. reflexivity.
  - apply bind_Ok in H. destruct H as [g1 [Hg1 H]].
    apply bind_Ok in H. destruct H as [g2 [Hg2 H]].
    inversion H; subst g. simpl.
    rewrite length_app, list_sum_app, (group_rows_length _ _ _ _ _ Hg1), (IH _ Hg2).
    reflexivity.
Qed.

Lemma assemble_lengths raw event_id st a :
  assemble raw event_id st = Ok a ->
  length (as_data a) = (as_n_epochs a * as_min_samples a)%nat
  /\ (1 <= as_n_epochs a)%nat.
Proof.
  unfold assemble. intros H.
  apply bind_Ok in H. destruct H as [n [_ H]].
  apply bind_Ok in H. destruct H as [g [Hg H]].
  destruct (sample_inds st); [discriminate|].
  destruct (all_min_samples (snd g) n) eqn:Hall; [|discriminate].
  inversion H; subst a. simpl.
  rewrite (Permutation_length (sort_rows_perm (fst g))), (assemble_groups_length _ _ _ _ Hg).
  unfold all_min_samples in Hall.
  destruct (snd g) as [|k ks] eqn:Hsnd; [discriminate|]. rewrite <- Hsnd in *.
  assert (Hsum : forall l, forallb (Nat.eqb n) l = true -> list_sum l = (length l * n)%nat).
  { intros l. induction l as [|x l IHl]; simpl; intros Hf; [reflexivity|].
    apply andb_true_iff in Hf. destruct Hf as [Hx Hf]. apply Nat.eqb_eq in Hx.
    rewrite IHl by exact Hf. lia. }
  split; [apply Hsum; exact Hall|]. rewrite Hsnd. simpl. lia.
Qed.

Lemma np_tile_length {A : Type} (l : list A) (n : nat) :
  length (np_tile l n) = (n * length l)%nat.
Proof.
  unfold np_tile. induction n as [|n IH]; simpl; [reflexivity|].
  rewrite length_app, IH. reflexivity.
Qed.

(** X10.  A construction whose epochs hold at least one sample returns
    only when the epochs are as long as the whole recording: line 94
    assigns the tiling of the absolute times of all samples, one copy per
    epoch, as a column of the table, and on a table that has rows pandas
    accepts it only if its length is the table's. *)
Theorem returned_epochs_span_the_recording
        (raw : Raw) (events : list marker) (event_id : event_id_spec) (tmin tmax : Q)
        (ep : Epochs)
        (Hok : Epochs_init raw events event_id tmin tmax = Ok ep)
        (Hpos : (1 <= self_n_times ep)%nat) :
  self_n_times ep = length (_samples raw)
  /\ length (self_times ep) = length (_samples raw).
Proof.
  apply Epochs_init_Ok in Hok.
  destruct Hok as [st [kept [a [d0 [missing [d [_ [_ [Has [Hidx [_ Hep]]]]]]]]]]].
  subst ep. simpl in *. rewrite linspace_length.
  destruct (assemble_lengths _ _ _ Has) as [Hlen Hn].
  unfold index_table, assign_times in Hidx.
  destruct (as_data a) as [|x data] eqn:Hd; [simpl in Hlen; nia|].
  destruct (length (np_tile (raw_times raw) (as_n_epochs a)) =? length (x :: data))%nat
    eqn:Hcheck; simpl in Hidx; [|discriminate].
  apply Nat.eqb_eq in Hcheck.
  rewrite np_tile_length, Hlen in Hcheck. unfold raw_times in Hcheck.
  rewrite length_map in Hcheck.
  apply Nat.mul_cancel_l in Hcheck; [|lia]. split; symmetry; exact Hcheck.
Qed.

Lemma returned_epochs_span_the_recording_witness :
  exists ep,
    Epochs_init (Examples.plain 2) [(0, 1); (0, 1)]%Z (Scalar 1) (-2) 0 = Ok ep
    /\ self_n_times ep = 2%nat.
Proof.
  destruct (Epochs_init (Examples.plain 2) [(0, 1); (0, 1)]%Z (Scalar 1) (-2) 0)
    as [ep|e] eqn:Hep; [|vm_compute in Hep; discriminate].
  exists ep. split; [reflexivity|].
  apply (@returned_epochs_span_the_recording
           (Examples.plain 2) [(0, 1); (0, 1)]%Z (Scalar 1) (-2) 0 ep Hep).
  vm_compute in Hep. inversion Hep. simpl. lia.
Defined.

(** ** What the overlay can change *)

Lemma foldM_invariant_In {A S : Type} (P : S -> Prop) (f : A -> S -> result S)
      (l : list A) :
  (forall x s s', In x l -> f x s = Ok s' -> P s -> P s') ->
  forall s s', foldM f l s = Ok s' -> P s -> P s'.
Proof.
  induction l as [|x l IH]; intros Hf s s' H Hs; simpl in H.
  - inversion H; subst. exact Hs.
  - apply bind_Ok in H. destruct H as [s1 [H1 H]].
    apply (IH (fun y t t' Hy => Hf y t t' (or_intror Hy)) s1 s' H).
    apply (Hf x s s1 (or_introl eq_refl) H1 Hs).
Qed.

Lemma np_getitem_In {A : Type} (a : list A) (i : Z) (x : A) :
  np_getitem a i = Ok x -> In x a.
Proof.
  unfold np_getitem. destruct (_ && _)%bool; [|discriminate].
  destruct (nth_error a _) as [y|] eqn:Hy; [|discriminate].
  intros H. inversion H; subst. eapply nth_error_In. exact Hy.
Qed.

(** Every step of the overlay rewrites the rows of one epoch that lie
    strictly inside one event of one of the three tables; a property of
    the table that such a step keeps is kept by the whole overlay. *)
Lemma overlay_rowwise (raw : Raw) (P : list row -> Prop) :
  (forall kind this_in ev ii column val s,
      In kind kinds -> getattr raw kind = Some this_in -> In ev (drows this_in) ->
      P s -> P (map (fun r => if here ev ii r then set_col column val r else r) s)) ->
  forall parsed missing d d', overlay raw parsed missing d = Ok d' -> P d -> P d'.
Proof.
  intros Hstep parsed missing d d' H. unfold overlay in H. revert H.
  apply foldM_invariant_In. intros [kind p] s s' Hkp Hk.
  apply in_combine_l in Hkp. unfold overlay_kind in Hk. simpl in Hk.
  destruct (getattr raw kind) as [this_in|] eqn:Hg; [|discriminate].
  revert Hk. apply foldM_invariant. clear s s'. intros kv s s' Hc.
  unfold overlay_code in Hc. revert Hc. apply foldM_invariant. clear s s'.
  intros e s s' He. unfold overlay_epoch in He.
  destruct (has_label s (fst e)); [|discriminate].
  destruct (np_any (snd e)); [|inversion He; subst; auto].
  revert He. apply foldM_invariant. clear s s'. intros iii s s' Hev.
  unfold write_event in Hev. apply bind_Ok in Hev. destruct Hev as [ev [Hget Hev]].
  apply np_getitem_In in Hget.
  revert Hev. apply foldM_invariant. clear s s'. intros column s s' Hcol Hs.
  unfold write_column in Hcol. apply bind_Ok in Hcol. destruct Hcol as [val [_ Hcol]].
  destruct (existsb _ _); [|discriminate]. inversion Hcol; subst s'.
  apply (Hstep kind this_in ev (Z.to_nat (fst e)) column val s Hkp Hg Hget Hs).
Qed.

Lemma Qlt_bool_iff (a b : Q) : Qlt_bool a b = true <-> (a < b)%Q.
Proof.
  unfold Qlt_bool. rewrite negb_true_iff. split.
  - intros H. apply Qnot_le_lt. intros Hle. apply Qle_bool_iff in Hle. congruence.
  - intros H. destruct (Qle_bool b a) eqn:Hle; [|reflexivity].
    apply Qle_bool_iff in Hle. exfalso. apply (Qlt_not_le _ _ H). exact Hle.
Qed.

Lemma index_table_null raw n data d missing :
  index_table raw n data = Ok (d, missing) ->
  Forall (fun r => forall kv, In kv (cols r) -> snd kv = Null) d.
Proof.
  unfold index_table. intros H.
  apply bind_Ok in H. destruct H as [d1 [_ H]].
  apply bind_Ok in H. destruct H as [d2 [_ H]].
  inversion H; subst d missing. apply Forall_forall. intros r Hr.
  apply in_map_iff in Hr. destruct Hr as [x [Hx _]]. subst r. cbn [cols].
  intros kv Hkv. simpl in Hkv.
  repeat (destruct Hkv as [Hkv|Hkv]; [subst kv; reflexivity|]).
  destruct Hkv.
Qed.

(** X13.  When the columns of the three discrete tables are among the
    thirteen attribute columns of lines 102-114, a row of a returned
    collection whose sample time is strictly inside no event of the three
    tables has every attribute column null: the overlay writes only into
    rows that satisfy [stime < time < etime] for an event of the table at
    hand (lines 101-114 and 125-131). *)
Theorem rows_outside_every_event_stay_null
        (raw : Raw) (events : list marker) (event_id : event_id_spec) (tmin tmax : Q)
        (ep : Epochs) (r : row) (column : string)
        (Hcols : forall kind this_in,
            In kind kinds -> getattr raw kind = Some this_in ->
            incl (columns this_in) attribute_columns)
        (Hok : Epochs_init raw events event_id tmin tmax = Ok ep)
        (Hrow : In r (self_data ep))
        (Hout : outside_every_event raw r) :
  get_col column r = Null.
Proof.
  apply Epochs_init_Ok in Hok.
  destruct Hok as [st [kept [a [d0 [missing [d [_ [_ [_ [Hidx [Hov Hep]]]]]]]]]]].
  subst ep. simpl in Hrow. apply index_table_null in Hidx.
  assert (Hall : Forall (fun r => outside_every_event raw r ->
                                  forall kv, In kv (cols r) -> snd kv = Null) d).
  { apply (@overlay_rowwise raw
             (Forall (fun r => outside_every_event raw r ->
                               forall kv, In kv (cols r) -> snd kv = Null)))
      with (2 := Hov).
    - intros kind this_in ev i col val s Hkind Hg Hev Hs.
      apply Forall_forall. intros r' Hr'. apply in_map_iff in Hr'.
      destruct Hr' as [r0 [Hr0 Hin]]. rewrite Forall_forall in Hs.
      destruct (here ev i r0) eqn:Hhere; subst r'; [|apply Hs; exact Hin].
      intros Hout'. exfalso.
      apply (Hout' kind this_in ev Hkind Hg Hev).
      unfold here in Hhere. apply andb_true_iff in Hhere. destruct Hhere as [Hh H2].
      apply andb_true_iff in Hh. destruct Hh as [_ H1].
      apply Qlt_bool_iff in H1. apply Qlt_bool_iff in H2.
      unfold row_time, set_col in *. simpl. split; assumption.
    - eapply Forall_impl; [|exact Hidx]. intros r' Hnull _. exact Hnull. }
  rewrite Forall_forall in Hall. apply get_col_all_null. apply Hall; assumption.
Qed.

Lemma rows_outside_every_event_stay_null_witness :
  exists ep r,
    Epochs_init (Examples.recording 3 (Some Examples.two_saccades)
                                    (Some Examples.no_events) (Some Examples.no_events))
                [(0, 1)%Z] (Scalar 1) (-1) 2 = Ok ep
    /\ nth_error (self_data ep) 2 = Some r
    /\ row_time r = 2%Q
    /\ get_col "ampl" r = Null.
Proof.
  destruct (Epochs_init (Examples.recording 3 (Some Examples.two_saccades)
                                            (Some Examples.no_events)
                                            (Some Examples.no_events))
                        [(0, 1)%Z] (Scalar 1) (-1) 2) as [ep|e] eqn:Hep;
    [|vm_compute in Hep; discriminate].
  assert (Hr : exists r, nth_error (self_data ep) 2 = Some r /\ row_time r = 2%Q).
  { vm_compute in Hep. inversion Hep. eexists. split; reflexivity. }
  destruct Hr as [r [Hr Ht]].
  exists ep, r. split; [reflexivity|]. split; [exact Hr|]. split; [exact Ht|].
  apply (@rows_outside_every_event_stay_null
           (Examples.recording 3 (Some Examples.two_saccades)
                               (Some Examples.no_events) (Some Examples.no_events))
           [(0, 1)%Z] (Scalar 1) (-1) 2 ep r "ampl"%string).
  - intros kind this_in Hkind Hg c Hc. simpl in Hkind.
    destruct Hkind as [Hk|[Hk|[Hk|[]]]]; subst kind;
      vm_compute in Hg; inversion Hg; subst this_in; simpl in Hc;
      repeat (destruct Hc as [Hc|Hc]; [subst c; simpl; tauto|]); destruct Hc.
  - exact Hep.
  - eapply nth_error_In. exact Hr.
  - intros kind this_in ev Hkind Hg Hev [H1 H2]. rewrite Ht in H1, H2.
    simpl in Hkind. destruct Hkind as [Hk|[Hk|[Hk|[]]]]; subst kind;
      vm_compute in Hg; inversion Hg; subst this_in; simpl in Hev.
    + destruct Hev as [Hev|[Hev|[]]]; subst ev; simpl in H2; vm_compute in H2; discriminate.
    + destruct Hev.
    + destruct Hev.
Defined.

(** ** Empty discrete tables *)

Lemma dict_append_no_indices {V : Type} (k : Z) (p : dict (list (list V))) :
  (forall kv ind, In kv p -> In ind (snd kv) -> ind = []) ->
  forall kv ind, In kv (dict_append k [] p) -> In ind (snd kv) -> ind = [].
Proof.
  intros Hp kv ind Hkv Hind. unfold dict_append in Hkv.
  apply in_map_iff in Hkv. destruct Hkv as [kv0 [Hkv0 Hin]].
  destruct (fst kv0 =? k)%Z; subst kv; [|apply (Hp kv0); assumption].
  simpl in Hind. apply in_app_or in Hind. destruct Hind as [Hind|[Hind|[]]].
  - apply (Hp kv0); assumption.
  - symmetry. exact Hind.
Qed.

Lemma record_kinds_no_indices raw this_id a b etypes : forall parsed,
  (forall etype df, In etype etypes -> getattr raw etype = Some df -> drows df = []) ->
  (forall p kv ind, In p parsed -> In kv p -> In ind (snd kv) -> ind = []) ->
  forall p kv ind,
    In p (record_kinds raw this_id a b etypes parsed) ->
    In kv p -> In ind (snd kv) -> ind = [].
Proof.
  induction etypes as [|etype etypes IH]; intros parsed Hempty Hparsed p kv ind Hp;
    [destruct parsed; apply Hparsed; exact Hp|].
  destruct parsed as [|q parsed]; [apply Hparsed; exact Hp|].
  simpl in Hp. destruct Hp as [Hp|Hp].
  - destruct (getattr raw etype) as [df|] eqn:Hg.
    + subst p. unfold event_in_window.
      rewrite (Hempty etype df (or_introl eq_refl) Hg). simpl.
      apply dict_append_no_indices. intros kv' ind'. apply Hparsed. left. reflexivity.
    + subst p. apply Hparsed. left. reflexivity.
  - apply (IH parsed); [| |exact Hp].
    + intros e df He. apply Hempty. right. exact He.
    + intros p' kv' ind' Hp'. apply Hparsed. right. exact Hp'.
Qed.

Lemma foldM_fixed {A S : Type} (f : A -> S -> result S) (l : list A) (s : S) :
  (forall x, In x l -> f x s = Ok s) -> foldM f l s = Ok s.
Proof.
  induction l as [|x l IH]; intros H; simpl; [reflexivity|].
  rewrite (H x (or_introl eq_refl)). simpl. apply IH. intros y Hy. apply H. right. exact Hy.
Qed.

(** ** When the assembly returns *)

(** X15.  With a scalar [event_id], at least one accepted marker and no
    window that starts more than the length of the recording before its
    first sample (so that every kept index addresses a sample), lines
    70-92 return a table: no error is raised by the minimum, by the
    positional selection of the samples, by the label lookup or by the
    check of line 90, and the table has [n_epochs * min_samples] rows. *)
Theorem scalar_assembly_returns
        (raw : Raw) (events : list marker) (code : Z) (tmin tmax : Q) (st : loop_state)
        (Hex : extract raw (Scalar code) tmin tmax events = Ok st)
        (Hne : accepted_markers raw [code] tmin tmax events <> [])
        (Hlow : forall m w, In m (accepted_markers raw [code] tmin tmax events) ->
                            window raw tmin tmax (fst m) = Ok w ->
                            (- Z.of_nat (length (_samples raw))
                             <= time_as_index raw (fst w))%Z) :
  exists a,
    assemble raw (Scalar code) st = Ok a
    /\ np_min (min_samples st) = Ok (as_min_samples a)
    /\ length (as_data a) = (as_n_epochs a * as_min_samples a)%nat.
Proof.
  destruct (assemble_succeeds_scalar raw events code tmin tmax Hex Hne Hlow) as [a Ha].
  exists a. split; [exact Ha|]. split.
  - apply assemble_min_samples with (1 := Ha).
  - apply assemble_lengths in Ha. tauto.
Qed.

Lemma scalar_assembly_returns_witness :
  exists st a,
    extract (Examples.plain 4) (Scalar 1) (-1) 1 [(1, 1); (2, 1)]%Z = Ok st
    /\ assemble (Examples.plain 4) (Scalar 1) st = Ok a
    /\ np_min (min_samples st) = Ok (as_min_samples a)
    /\ length (as_data a) = (as_n_epochs a * as_min_samples a)%nat.
Proof.
  destruct (extract (Examples.plain 4) (Scalar 1) (-1) 1 [(1, 1); (2, 1)]%Z)
    as [st|e] eqn:Hex; [|vm_compute in Hex; discriminate].
  destruct (@scalar_assembly_returns
              (Examples.plain 4) [(1, 1); (2, 1)]%Z 1%Z (-1) 1 st Hex) as [a Ha].
  - discriminate.
  - intros m w Hm Hw. simpl in Hm.
    destruct Hm as [Hm|[Hm|[]]]; subst m; vm_compute in Hw; inversion Hw; subst w;
      vm_compute; discriminate.
  - exists st, a. split; [reflexivity | exact Ha].
Defined.

(** ** The epoch of a row *)

Lemma group_rows_epochs raw event_id n c values g r :
  group_rows raw event_id n c values = Ok g ->
  In r (fst g) ->
  event_label event_id c = Ok (s_event_id r)
  /\ exists e, In e values /\ s_epoch_idx r = snd e.
Proof.
  unfold group_rows. destruct values as [|v0 vs]; [discriminate|]. intros H Hr.
  apply bind_Ok in H. destruct H as [df [_ H]].
  apply bind_Ok in H. destruct H as [lab [Hlab H]].
  match type of H with
  | (if (?x =? ?y)%nat then _ else _) = _ =>
      destruct (x =? y)%nat; [|discriminate]; inversion H; subst g; cbn [fst] in Hr
  end.
  apply in_map_iff in Hr. destruct Hr as [[s k] [Hr Hin]]. subst r. cbn [s_event_id s_epoch_idx fst snd].
  split; [exact Hlab|].
  apply in_combine_r in Hin.
  change (In k (concat (map (fun v : list Z * nat => repeat (snd v) n) (v0 :: vs)))) in Hin.
  apply in_concat in Hin. destruct Hin as [l [Hl Hk]].
  apply in_map_iff in Hl. destruct Hl as [e [He Hein]]. subst l.
  apply repeat_spec in Hk. exists e. split; [exact Hein | exact Hk].
Qed.

Lemma assemble_groups_epochs raw event_id n d : forall g r,
  assemble_groups raw event_id n d = Ok g ->
  In r (fst g) ->
  exists c values e,
    In (c, values) d /\ In e values /\ s_epoch_idx r = snd e
    /\ event_label event_id c = Ok (s_event_id r).
Proof.
  induction d as [|[c values] d IH]; intros g r H Hr; simpl in H.
  - inversion H; subst g. destruct Hr.
  - apply bind_Ok in H. destruct H as [g1 [Hg1 H]].
    apply bind_Ok in H. destruct H as [g2 [Hg2 H]].
    inversion H; subst g. cbn [fst] in Hr. apply in_app_or in Hr. destruct Hr as [Hr|Hr].
    + destruct (@group_rows_epochs _ _ _ _ _ _ _ Hg1 Hr) as [Hlab [e [He Hidx]]].
      exists c, values, e. split; [left; reflexivity|]. auto.
    + destruct (IH g2 r Hg2 Hr) as [c' [values' [e [Hin [He [Hidx Hlab]]]]]].
      exists c', values', e. split; [right; exact Hin|]. auto.
Qed.

(** X18.  Every row of the assembled table belongs to an accepted marker:
    its [epoch_idx] is the position of that marker among the accepted
    markers, and its [event_id] is the label of that marker's code
    (lines 57, 75-83). *)
Theorem every_row_belongs_to_an_accepted_marker
        (raw : Raw) (events : list marker) (event_id : event_id_spec) (tmin tmax : Q)
        (st : loop_state) (a : assembled) (r : srow)
        (Hex : extract raw event_id tmin tmax events = Ok st)
        (Has : assemble raw event_id st = Ok a)
        (Hrow : In r (as_data a)) :
  exists m,
    nth_error (accepted_markers raw (my_event_id_of event_id) tmin tmax events)
              (s_epoch_idx r) = Some m
    /\ event_label event_id (snd m) = Ok (s_event_id r).
Proof.
  apply assemble_Ok in Has. destruct Has as [g [_ [Hg [Hdata _]]]].
  rewrite Hdata in Hrow.
  apply (Permutation_in _ (sort_rows_perm (fst g))) in Hrow.
  destruct (@assemble_groups_epochs _ _ _ _ _ _ Hg Hrow)
    as [c [values [e [Hin [He [Hidx Hlab]]]]]].
  destruct (sample_inds_entry _ _ _ _ _ _ _ _ Hex Hin He) as [x [Hx [Hcode Hentry]]].
  exists (fst x). split.
  - rewrite Hidx, Hentry. simpl. apply indexed_nth. exact Hx.
  - unfold code_of in Hcode. rewrite Hcode. exact Hlab.
Qed.

Lemma every_row_belongs_to_an_accepted_marker_witness :
  exists st a r m,
    extract (Examples.plain 4) (Labeled [("a", 1); ("b", 2)]%string%Z) (-1) 1
            [(1, 1); (1, 2); (2, 1)]%Z = Ok st
    /\ assemble (Examples.plain 4) (Labeled [("a", 1); ("b", 2)]%string%Z) st = Ok a
    /\ nth_error (as_data a) 2 = Some r
    /\ s_epoch_idx r = 1%nat
    /\ nth_error [(1, 1); (1, 2); (2, 1)]%Z (s_epoch_idx r) = Some m
    /\ event_label (Labeled [("a", 1); ("b", 2)]%string%Z) (snd m) = Ok (s_event_id r).
Proof.
  destruct (extract (Examples.plain 4) (Labeled [("a", 1); ("b", 2)]%string%Z) (-1) 1
                    [(1, 1); (1, 2); (2, 1)]%Z) as [st|e] eqn:Hex;
    [|vm_compute in Hex; discriminate].
  assert (Hst : exists a r, assemble (Examples.plain 4)
                                     (Labeled [("a", 1); ("b", 2)]%string%Z) st = Ok a
                            /\ nth_error (as_data a) 2 = Some r
                            /\ s_epoch_idx r = 1%nat).
  { vm_compute in Hex. inversion Hex. eexists. eexists.
    split; [vm_compute; reflexivity|]. split; reflexivity. }
  destruct Hst as [a [r [Has [Hr Hidx]]]].
  destruct (@every_row_belongs_to_an_accepted_marker
              (Examples.plain 4) [(1, 1); (1, 2); (2, 1)]%Z
              (Labeled [("a", 1); ("b", 2)]%string%Z) (-1) 1 st a r Hex Has
              (nth_error_In _ _ Hr)) as [m [Hm Hlab]].
  exists st, a, r, m. split; [reflexivity|]. split; [exact Has|]. split; [exact Hr|].
  split; [exact Hidx|]. split; [exact Hm | exact Hlab].
Defined.

(** ** The rows of a returned collection *)

Lemma assembled_row_epoch raw events event_id tmin tmax st a r :
  extract raw event_id tmin tmax events = Ok st ->
  assemble raw event_id st = Ok a ->
  In r (as_data a) ->
  (s_epoch_idx r
   < length (accepted_markers raw (my_event_id_of event_id) tmin tmax events))%nat.
Proof.
  intros Hex Has Hrow.
  apply assemble_Ok in Has. destruct Has as [g [_ [Hg [Hdata _]]]].
  rewrite Hdata in Hrow.
  apply (Permutation_in _ (sort_rows_perm (fst g))) in Hrow.
  destruct (@assemble_groups_epochs _ _ _ _ _ _ Hg Hrow)
    as [c [values [e [Hin [He [Hidx _]]]]]].
  destruct (sample_inds_entry _ _ _ _ _ _ _ _ Hex Hin He) as [x [Hx [_ Hentry]]].
  rewrite Hidx, Hentry. simpl.
  apply indexed_nth in Hx. apply nth_error_Some. rewrite Hx. discriminate.
Qed.


(** When the epochs hold at least one sample, every label of the index
    of the table is the [epoch_idx] of one of its rows: the lookup of line
    123 finds it. *)
Lemma labels_have_rows raw events event_id tmin tmax st a d :
  extract raw event_id tmin tmax events = Ok st ->
  assemble raw event_id st = Ok a ->
  (1 <= as_min_samples a)%nat ->
  map base d = as_data a ->
  forall ii, In ii (index_labels d []) -> has_label d ii = true.
Proof.
  intros Hex Has Hpos Hbase ii Hii.
  set (acc := accepted_markers raw (my_event_id_of event_id) tmin tmax events).
  destruct (@assembled_blocks raw events event_id tmin tmax st a Hex Has)
    as [_ [_ [_ [_ [_ [_ Hblocks]]]]]].
  fold acc in Hblocks.
  unfold index_labels in Hii. rewrite app_nil_r in Hii.
  apply in_map_iff in Hii. destruct Hii as [j [Hj Hin]]. subst ii.
  apply in_seq in Hin. destruct Hin as [_ Hlt]. simpl in Hlt.
  assert (Hk : (length (nodup Nat.eq_dec (map epoch_idx d)) <= length acc)%nat).
  { rewrite <- (length_seq (length acc) 0).
    apply NoDup_incl_length; [apply NoDup_nodup|].
    intros e He. apply nodup_In in He. apply in_map_iff in He.
    destruct He as [r [Hr Hrin]]. subst e. apply in_seq. split; [lia|]. simpl.
    unfold epoch_idx, acc. apply (@assembled_row_epoch raw events event_id tmin tmax st a);
      [exact Hex | exact Has |].
    rewrite <- Hbase. apply in_map. exact Hrin. }
  destruct (nth_error acc j) as [m|] eqn:Hm;
    [|apply nth_error_None in Hm; lia].
  destruct (Hblocks j m Hm) as [lab [ss [_ [_ [_ [_ Hcount]]]]]].
  destruct (filter (fun r => (s_epoch_idx r =? j)%nat) (as_data a)) as [|r0 rest] eqn:Hf;
    [simpl in Hcount; lia|].
  assert (Hr0 : In r0 (filter (fun r => (s_epoch_idx r =? j)%nat) (as_data a)))
    by (rewrite Hf; left; reflexivity).
  apply filter_In in Hr0. destruct Hr0 as [Hr0 Hj]. apply Nat.eqb_eq in Hj.
  rewrite <- Hbase in Hr0. apply in_map_iff in Hr0. destruct Hr0 as [r [Hr Hrin]].
  unfold has_label. apply existsb_exists. exists r. split; [exact Hrin|].
  apply Z.eqb_eq. unfold epoch_idx. rewrite Hr, Hj. reflexivity.
Qed.




(** ** Empty discrete tables: the overlay *)

(** X14.  When every discrete table named by the recording's event types
    is empty, the three tables the overlay reads exist and the epochs hold
    at least one sample, the marker loop records no event and the overlay
    returns the table of lines 94-114 as it is: the lookup of line 123
    finds every label, empty tables are no error, and every attribute
    column stays as it was (lines 59-65 and 117-131). *)
Theorem empty_tables_leave_the_table_unchanged
        (raw : Raw) (events : list marker) (event_id : event_id_spec) (tmin tmax : Q)
        (st : loop_state) (a : assembled) (d : list row) (missing : list Q)
        (Hex : extract raw event_id tmin tmax events = Ok st)
        (Has : assemble raw event_id st = Ok a)
        (Hidx : index_table raw (as_n_epochs a) (as_data a) = Ok (d, missing))
        (Hpos : (1 <= as_min_samples a)%nat)
        (Hempty : forall etype df, In etype (event_types raw) ->
                                   getattr raw etype = Some df -> drows df = [])
        (Hpresent : forall kind, In kind kinds -> getattr raw kind <> None) :
  overlay raw (parsed_inds st) missing d = Ok d.
Proof.
  assert (Hnone : forall p kv ind, In p (parsed_inds st) -> In kv p -> In ind (snd kv) ->
                                   ind = []).
  { destruct (extract_accepted _ _ _ _ _ Hex) as [Hst _]. rewrite Hst.
    generalize (accepted_markers raw (my_event_id_of event_id) tmin tmax events).
    intros acc.
    assert (Hinit : forall p kv ind,
               In p (parsed_inds (init_state (my_event_id_of event_id))) ->
               In kv p -> In ind (snd kv) -> ind = []).
    { intros p kv ind Hp Hkv Hind. simpl in Hp.
      assert (Hp' : p = dict_init (list nat) (my_event_id_of event_id))
        by (destruct Hp as [Hp|[Hp|[Hp|[]]]]; symmetry; exact Hp).
      subst p. unfold dict_init in Hkv. apply in_map_iff in Hkv.
      destruct Hkv as [c [Hc _]]. subst kv. destruct Hind. }
    revert Hinit. generalize (init_state (my_event_id_of event_id)).
    induction acc as [|m acc IH]; intros s Hs; simpl; [exact Hs|].
    apply IH. unfold accept.
    destruct (window raw tmin tmax (fst m)) as [w|e]; simpl; [|exact Hs].
    apply record_kinds_no_indices; assumption. }
  apply index_table_Ok in Hidx. destruct Hidx as [Hbase [Hne _]].
  assert (Hmiss : missing = []).
  { apply Hne. intros Hnil.
    destruct (assemble_lengths _ _ _ Has) as [Hlen Hn].
    rewrite Hnil in Hlen. simpl in Hlen. nia. }
  subst missing.
  pose proof (@labels_have_rows raw events event_id tmin tmax st a d Hex Has Hpos Hbase)
    as Hlab.
  unfold overlay. apply foldM_fixed. intros [kind p] Hkp.
  pose proof (in_combine_l _ _ _ _ Hkp) as Hkind.
  pose proof (in_combine_r _ _ _ _ Hkp) as Hp.
  destruct (getattr raw kind) as [this_in|] eqn:Hg;
    [|exfalso; apply (Hpresent kind Hkind); exact Hg].
  apply (@overlay_kind_nothing_recorded raw [] kind this_in p d Hg); [|exact Hlab].
  intros kv ind Hkv Hind. rewrite (Hnone p kv ind Hp Hkv Hind). reflexivity.
Qed.

Lemma empty_tables_leave_the_table_unchanged_witness :
  exists st a d,
    extract (Examples.plain 2) (Scalar 1) (-2) 0 [(0, 1); (0, 1)]%Z = Ok st
    /\ assemble (Examples.plain 2) (Scalar 1) st = Ok a
    /\ index_table (Examples.plain 2) (as_n_epochs a) (as_data a) = Ok (d, [])
    /\ map epoch_idx d = [0; 0; 1; 1]%nat
    /\ parsed_inds st = [[(1%Z, [[]; []])]; [(1%Z, [[]; []])]; [(1%Z, [[]; []])]]
    /\ overlay (Examples.plain 2) (parsed_inds st) [] d = Ok d.
Proof.
  destruct (extract (Examples.plain 2) (Scalar 1) (-2) 0 [(0, 1); (0, 1)]%Z)
    as [st|e] eqn:Hex; [|vm_compute in Hex; discriminate].
  assert (Hst : exists a d,
             assemble (Examples.plain 2) (Scalar 1) st = Ok a
             /\ index_table (Examples.plain 2) (as_n_epochs a) (as_data a) = Ok (d, [])
             /\ map epoch_idx d = [0; 0; 1; 1]%nat
             /\ parsed_inds st = [[(1%Z, [[]; []])]; [(1%Z, [[]; []])]; [(1%Z, [[]; []])]]
             /\ (1 <= as_min_samples a)%nat).
  { vm_compute in Hex. inversion Hex. eexists. eexists.
    split; [vm_compute; reflexivity|]. split; [vm_compute; reflexivity|].
    split; [reflexivity|]. split; [reflexivity|]. simpl. lia. }
  destruct Hst as [a [d [Has [Hidx [Hrows [Hparsed Hpos]]]]]].
  exists st, a, d. split; [reflexivity|]. split; [exact Has|]. split; [exact Hidx|].
  split; [exact Hrows|]. split; [exact Hparsed|].
  apply (@empty_tables_leave_the_table_unchanged
           (Examples.plain 2) [(0, 1); (0, 1)]%Z (Scalar 1) (-2) 0 st a d [] Hex Has
           Hidx Hpos).
  - intros etype df Hin Hg. simpl in Hin.
    destruct Hin as [Hk|[Hk|[Hk|[]]]]; subst etype;
      vm_compute in Hg; inversion Hg; reflexivity.
  - intros kind Hin. simpl in Hin.
    destruct Hin as [Hk|[Hk|[Hk|[]]]]; subst kind; vm_compute; discriminate.
Defined.
